(** * Neo Notes: the note service and the agent tool-calling loop

    A shallow embedding of [backend/server.js].  The development follows
    the source file top to bottom: the JavaScript values the code observes,
    the JSON file store, the note service (create, get, update, delete,
    search), the tool handlers and the bounded agent loop; then the
    vocabulary of the statements, sample data, and the proofs.

    Modelling conventions.
    - A string of the service is a sequence of code units in the range
      U+0000..U+00FF (one [ascii] each); [trim] and [toLowerCase] are the
      JavaScript functions restricted to that range, where lower-casing
      maps each code unit by itself.  Beyond that range lower-casing
      depends on the neighbouring code points; module [Utf16] has strings
      of any code units with that [toLowerCase], and the filter of the
      search is stated over both.
    - JSON numbers are the safe integers (of magnitude below 2^53, [Z]),
      which [String] prints in plain decimal; a lookup key produced by
      [parseInt] or [Number] is a [number]: an integer or [NaN].  The
      grammar that [Number] applies to a string is a parameter of the
      handlers.
    - [String(v)] and [Number(v)] throw on an object that carries a
      [toString] key of its own, and the exception leaves the function
      that converts: [normalizeCategory], [normalizeColor], [searchNotes],
      the handlers.
    - The history of an agent request is forwarded to the model entry by
      entry, each the object the caller sent.
    - Timestamps are clock readings in milliseconds ([Z]); the source renders
      them with [toISOString], which is injective on readings.  Every
      [Date.now()] and [new Date()] is one reading of the clock.
    - Code that throws is modelled in a state-and-exception monad; the state
      survives a throw, as the file on disk does.  Reading and writing the
      data file do not fail, and the file holds what the service wrote.
    - A tool call carries what [JSON.parse] makes of its arguments text; the
      language model is a function from the message list it is sent to its
      answer, or to a failed call. *)

From Stdlib Require Import ZArith NArith Ascii String Bool.
From stdpp Require Import base decidable option list strings pretty gmap.

Set Warnings "-register-all".
Local Open Scope string_scope.
Local Open Scope list_scope.
Local Open Scope Z_scope.

(** ** Strings *)

Module Js.

Definition isWhiteSpace (c : ascii) : bool :=
  let n := N_of_ascii c in
  ((9 <=? n) && (n <=? 13) || (n =? 32) || (n =? 160))%N.

Fixpoint trimStart (s : string) : string :=
  match s with
  | EmptyString => EmptyString
  | String c rest => if isWhiteSpace c then trimStart rest else s
  end.

Fixpoint trimEnd (s : string) : string :=
  match s with
  | EmptyString => EmptyString
  | String c rest =>
      match trimEnd rest with
      | EmptyString => if isWhiteSpace c then EmptyString else String c EmptyString
      | kept => String c kept
      end
  end.

(** [String.prototype.trim] *)
Definition trim (s : string) : string := trimEnd (trimStart s).

Definition lowerChar (c : ascii) : ascii :=
  let n := N_of_ascii c in
  if ((65 <=? n) && (n <=? 90) || (192 <=? n) && (n <=? 214)
      || (216 <=? n) && (n <=? 222))%N
  then ascii_of_N (n + 32) else c.

(** [String.prototype.toLowerCase] *)
Fixpoint toLowerCase (s : string) : string :=
  match s with
  | EmptyString => EmptyString
  | String c rest => String (lowerChar c) (toLowerCase rest)
  end.

(** [String.prototype.includes]: [q] occurs in [s] at some position. *)
Fixpoint includes (s q : string) : bool :=
  String.prefix q s ||
  match s with
  | EmptyString => false
  | String _ rest => includes rest q
  end.

(** [String.prototype.slice(0, limit)] *)
Definition slice0 (limit : nat) (s : string) : string := String.substring 0 limit s.

(** ** Values

    The values that reach the server from a JSON body, from the parsed
    arguments of a tool call, or from a missing property ([VUndefined]). *)

Inductive value :=
| VUndefined
| VNull
| VBool (b : bool)
| VNum (z : Z)
| VStr (s : string)
| VArr (items : list value)
| VObj (props : list (string * value)).

(** ToBoolean *)
Definition truthy (v : value) : bool :=
  match v with
  | VUndefined | VNull => false
  | VBool b => b
  | VNum z => negb (z =? 0)
  | VStr s => negb (String.eqb s "")
  | VArr _ | VObj _ => true
  end.

Fixpoint joinWith (sep : string) (parts : list string) : string :=
  match parts with
  | [] => ""
  | [p] => p
  | p :: rest => p +:+ sep +:+ joinWith sep rest
  end.

(** ** Exceptions *)

Inductive error :=
| TypeError (msg : string)
| SyntaxError (msg : string)
| Error (msg : string).

Inductive outcome (A : Type) :=
| Ok (a : A)
| Throw (e : error).
Arguments Ok {A} a.
Arguments Throw {A} e.

(** [String(v)].  A plain object is converted through its [toString]
    property: a parsed object that carries a key [toString] of its own holds
    a value that cannot be called, the [valueOf] it then falls back to
    returns the object itself, and the conversion throws; without that key
    the inherited method prints [[object Object]].  An array joins the
    conversions of its elements with commas, printing [null] and
    [undefined] elements as empty, and throws when one of them does. *)
Fixpoint toString (v : value) : outcome string :=
  match v with
  | VUndefined => Ok "undefined"
  | VNull => Ok "null"
  | VBool true => Ok "true"
  | VBool false => Ok "false"
  | VNum z => Ok (pretty z)
  | VStr s => Ok s
  | VArr items =>
      match
        (fix each (l : list value) : outcome (list string) :=
           match l with
           | [] => Ok []
           | x :: rest =>
               match match x with
                     | VUndefined | VNull => Ok ""
                     | _ => toString x
                     end with
               | Throw e => Throw e
               | Ok shown =>
                   match each rest with
                   | Throw e => Throw e
                   | Ok others => Ok (shown :: others)
                   end
               end
           end) items
      with
      | Throw e => Throw e
      | Ok parts => Ok (joinWith "," parts)
      end
  | VObj props =>
      match list_find (fun p => p.1 = "toString") props with
      | Some _ => Throw (TypeError "Cannot convert object to primitive value")
      | None => Ok "[object Object]"
      end
  end.

(** [a || b] *)
Definition or_else (a b : value) : value := if truthy a then a else b.

(** The own property [k] of an object; [undefined] when absent, and for
    every primitive and array (none of the property names the server reads
    exists on their prototypes). *)
Definition member (v : value) (k : string) : value :=
  match v with
  | VObj props =>
      match list_find (fun p => p.1 = k) props with
      | Some (_, (_, x)) => x
      | None => VUndefined
      end
  | _ => VUndefined
  end.

(** A number as the server compares it with [===]. *)
Inductive number := NaN | Num (z : Z).

#[global] Instance number_eq_dec : EqDecision number.
Proof. solve_decision. Defined.

(** ** The state monad *)

Definition M (S A : Type) : Type := S -> outcome A * S.

Definition ret {S A} (a : A) : M S A := fun s => (Ok a, s).

Definition bind {S A B} (m : M S A) (k : A -> M S B) : M S B :=
  fun s => match m s with
           | (Ok a, s') => k a s'
           | (Throw e, s') => (Throw e, s')
           end.

Definition throw {S A} (e : error) : M S A := fun s => (Throw e, s).

(** [try { m } catch (_) { h }] *)
Definition try_catch {S A} (m : M S A) (h : M S A) : M S A :=
  fun s => match m s with
           | (Ok a, s') => (Ok a, s')
           | (Throw _, s') => h s'
           end.

End Js.

Import Js.

Declare Scope js_scope.
Delimit Scope js_scope with js.
Notation "'let*' x ':=' m 'in' k" := (bind m (fun x => k))
  (at level 10, x name, m at level 100, k at level 200) : js_scope.
Notation "m '>>' k" := (bind m (fun _ => k))
  (at level 65, right associativity) : js_scope.
Local Open Scope js_scope.

(** A computation that touches no state. *)
Definition lift {S A} (o : outcome A) : M S A := fun s => (o, s).

(** Property access [v.k]: throws on [null] and [undefined]. *)
Definition prop {S} (v : value) (k : string) : M S value :=
  match v with
  | VUndefined | VNull =>
      throw (TypeError ("Cannot read properties of " +:+
                        match v with VNull => "null" | _ => "undefined" end))
  | _ => ret (member v k)
  end.

(** A default parameter [v = {}]: only [undefined] takes the default. *)
Definition defaulted (v : value) : value :=
  match v with VUndefined => VObj [] | _ => v end.

(** ** Notes and the store *)

Module Note.
Record t := mk {
  id : Z;
  title : string;
  text : string;
  category : string;
  color : string;
  createdAt : Z;
  updatedAt : Z
}.

(** Assignments to one field of a copy. *)
Definition set_title (v : string) (n : t) : t :=
  mk (id n) v (text n) (category n) (color n) (createdAt n) (updatedAt n).
Definition set_text (v : string) (n : t) : t :=
  mk (id n) (title n) v (category n) (color n) (createdAt n) (updatedAt n).
Definition set_category (v : string) (n : t) : t :=
  mk (id n) (title n) (text n) v (color n) (createdAt n) (updatedAt n).
Definition set_color (v : string) (n : t) : t :=
  mk (id n) (title n) (text n) (category n) v (createdAt n) (updatedAt n).
Definition set_updatedAt (v : Z) (n : t) : t :=
  mk (id n) (title n) (text n) (category n) (color n) (createdAt n) v.
End Note.
Abbreviation note := Note.t.

#[global] Instance note_eq_dec : EqDecision note.
Proof. solve_decision. Defined.

(** The machine the server runs on: the data file ([None] while it does
    not exist), the clock as the sequence of readings it will return, the
    number of readings taken so far, and the number of [writeNotes] calls
    made so far. *)
Record world := World {
  disk : option (list note);
  clock : nat -> Z;
  ticks : nat;
  rewrites : nat
}.

Definition ALLOWED_CATEGORIES : gset string :=
  {[ "general"; "personal"; "work"; "ideas" ]}.

Definition initDataFile : M world unit :=
  fun w =>
    match disk w with
    | Some _ => (Ok tt, w)
    | None => (Ok tt, World (Some []) (clock w) (ticks w) (rewrites w))
    end.

Definition readNotes : M world (list note) :=
  initDataFile >>
  fun w => (Ok (default [] (disk w)), w).

Definition writeNotes (notes : list note) : M world unit :=
  initDataFile >>
  fun w => (Ok tt, World (Some notes) (clock w) (ticks w) (S (rewrites w))).

(** [Date.now()] and [new Date()]: one reading of the clock. *)
Definition dateNow : M world Z :=
  fun w => (Ok (clock w (ticks w)),
            World (disk w) (clock w) (S (ticks w)) (rewrites w)).

Definition normalizeCategory (category : value) : outcome string :=
  if negb (truthy category) then Ok "general"
  else
    match toString category with
    | Throw e => Throw e
    | Ok shown =>
        let value := toLowerCase shown in
        Ok (if decide (value ∈ ALLOWED_CATEGORIES) then value else "general")
    end.

Definition normalizeColor (color : value) : outcome string :=
  if negb (truthy color) then Ok "#ffffff" else toString color.

Record basePayload := BasePayload {
  bp_title : string;
  bp_text : string;
  bp_category : string;
  bp_color : string
}.

Definition buildNotePayload {S} (payload : value) : M S basePayload :=
  let payload := defaulted payload in
  let* vtitle := prop payload "title" in
  let* vtext := prop payload "text" in
  let* vcategory := prop payload "category" in
  let* category := lift (normalizeCategory vcategory) in
  let* vcolor := prop payload "color" in
  let* color := lift (normalizeColor vcolor) in
  ret {| bp_title := match vtitle with
                     | VStr s => if String.eqb (trim s) "" then "Untitled" else trim s
                     | _ => "Untitled"
                     end;
         bp_text := match vtext with VStr s => trim s | _ => "" end;
         bp_category := category;
         bp_color := color |}.

Definition addNote (payload : value) : M world note :=
  let* notes := readNotes in
  let* basePayload := buildNotePayload payload in
  let* now := dateNow in
  let* created := dateNow in
  let* updated := dateNow in
  let newNote :=
    Note.mk now (bp_title basePayload) (bp_text basePayload)
            (bp_category basePayload) (bp_color basePayload) created updated in
  writeNotes (notes ++ [newNote]) >>
  ret newNote.

(** [n.id === id] *)
Definition hasId (id : number) (n : note) : Prop := Num (Note.id n) = id.

#[global] Instance hasId_dec id n : Decision (hasId id n).
Proof. unfold hasId. apply _. Defined.

(** [Array.prototype.find]; [None] is [undefined]. *)
Definition getNoteById (id : number) : M world (option note) :=
  let* notes := readNotes in
  ret (snd <$> list_find (hasId id) notes).

Definition updateNoteById (id : number) (updates : value) : M world (option note) :=
  let updates := defaulted updates in
  let* notes := readNotes in
  match list_find (hasId id) notes with
  | None => ret None
  | Some (index, current) =>
      let next := current in
      let* vtitle := prop updates "title" in
      let next :=
        match vtitle with
        | VStr s =>
            Note.set_title
              (if String.eqb (trim s) "" then Note.title next else trim s) next
        | _ => next
        end in
      let* vtext := prop updates "text" in
      let next :=
        match vtext with
        | VStr s => Note.set_text (trim s) next
        | _ => next
        end in
      let* vcategory := prop updates "category" in
      let* next :=
        match vcategory with
        | VUndefined => ret next
        | _ =>
            let* category := lift (normalizeCategory vcategory) in
            ret (Note.set_category category next)
        end in
      let* vcolor := prop updates "color" in
      let* next :=
        match vcolor with
        | VUndefined => ret next
        | _ =>
            let* color := lift (normalizeColor vcolor) in
            ret (Note.set_color color next)
        end in
      let* now := dateNow in
      let next := Note.set_updatedAt now next in
      writeNotes (<[index := next]> notes) >>
      ret (Some next)
  end.

Definition deleteNoteById (id : number) : M world bool :=
  let* notes := readNotes in
  let nextNotes := filter (fun n => ¬ hasId id n) notes in
  if (length nextNotes =? length notes)%nat then ret false
  else writeNotes nextNotes >> ret true.

Definition searchNotes (query : value) : M world (list note) :=
  let* shown := lift (toString (or_else query (VStr ""))) in
  let normalized := toLowerCase shown in
  let* notes := readNotes in
  ret (filter (fun n : note =>
                 includes (toLowerCase (Note.title n)) normalized
                 || includes (toLowerCase (Note.text n)) normalized) notes).

Definition truncateText (limit : nat) (text : string) : string :=
  if String.eqb text "" then ""
  else if (String.length text <=? limit)%nat then text
  else slice0 limit text +:+ "...".

(** ** The tool registry and its handlers *)

Record summary := Summary {
  s_id : Z;
  s_title : string;
  s_category : string;
  s_updatedAt : Z;
  s_preview : string
}.

Definition summarize (n : note) : summary :=
  Summary (Note.id n) (Note.title n) (Note.category n) (Note.updatedAt n)
          (truncateText 160 (Note.text n)).

(** What a handler call evaluates to. [RValue] is a plain JSON value. *)
Inductive jsresult :=
| RUndefined
| RNull
| RBool (b : bool)
| RString (s : string)
| RNote (n : note)
| RSummaries (l : list summary)
| RValue (v : value)
| RErrorObj (msg : string).

(** [r ?? d] *)
Definition coalesce (r d : jsresult) : jsresult :=
  match r with
  | RUndefined | RNull => d
  | _ => r
  end.

(** The names declared in [agentTools]. *)
Inductive tool := list_notes | search_notes | create_note | update_note | delete_note.

Definition toolName (t : tool) : string :=
  match t with
  | list_notes => "list_notes"
  | search_notes => "search_notes"
  | create_note => "create_note"
  | update_note => "update_note"
  | delete_note => "delete_note"
  end.

Definition agentTools : list tool :=
  [list_notes; search_notes; create_note; update_note; delete_note].

(** [agentHandlers] is an object literal, so [agentHandlers[name]] also
    finds what the literal inherits from [Object.prototype]. *)
Inductive protoMember :=
| ObjectFunction          (* constructor *)
| ProtoToString           (* toString *)
| ProtoIsPrototypeOf      (* isPrototypeOf *)
| ProtoObject             (* __proto__ : Object.prototype itself *)
| ProtoMethod.            (* the methods that start with ToObject(this) *)

Definition objectPrototype (name : string) : option protoMember :=
  if decide (name = "constructor") then Some ObjectFunction
  else if decide (name = "toString") then Some ProtoToString
  else if decide (name = "isPrototypeOf") then Some ProtoIsPrototypeOf
  else if decide (name = "__proto__") then Some ProtoObject
  else if decide (name ∈ ["hasOwnProperty"; "propertyIsEnumerable";
                          "toLocaleString"; "valueOf";
                          "__defineGetter__"; "__defineSetter__";
                          "__lookupGetter__"; "__lookupSetter__"])
       then Some ProtoMethod
  else None.

Inductive handlerRef :=
| Own (t : tool)
| Inherited (m : protoMember).

(** [agentHandlers[toolName]]; [None] is [undefined]. *)
Definition agentHandlers (name : string) : option handlerRef :=
  match list_find (fun t => toolName t = name) agentTools with
  | Some (_, t) => Some (Own t)
  | None => Inherited <$> objectPrototype name
  end.

(** The rest object of [{ id, ...updates }]: the own enumerable properties
    other than [id]. *)
Definition restWithout (k : string) (v : value) : value :=
  match v with
  | VObj props => VObj (filter (fun p => p.1 ≠ k) props)
  | VArr items => VObj (imap (fun i x => (pretty i, x)) items)
  | VStr s =>
      VObj (imap (fun i c => (pretty i, VStr (String c EmptyString)))
                 (list_ascii_of_string s))
  | _ => VObj []
  end.

Section Handlers.

(** The numeric-literal grammar of [Number(string)], left to the runtime. *)
Variable StringToNumber : string -> number.

(** [Number(v)]: an array or object is first converted to a string, which
    throws when [String(v)] does. *)
Definition toNumber (v : value) : outcome number :=
  match v with
  | VUndefined => Ok NaN
  | VNull => Ok (Num 0)
  | VBool b => Ok (Num (if b then 1 else 0))
  | VNum z => Ok (Num z)
  | VStr s => Ok (StringToNumber s)
  | VArr _ | VObj _ =>
      match toString v with
      | Throw e => Throw e
      | Ok shown => Ok (StringToNumber shown)
      end
  end.

Definition handle (t : tool) (args : value) : M world jsresult :=
  match t with
  | list_notes =>
      let* notes := readNotes in
      ret (RSummaries (map summarize notes))
  | search_notes =>
      let* query := prop args "query" in
      let* results := searchNotes query in
      ret (RSummaries (map summarize results))
  | create_note =>
      let* created := addNote args in
      ret (RNote created)
  | update_note =>
      let* id := prop args "id" in
      let updates := restWithout "id" args in
      let* key := lift (toNumber id) in
      let* updated := updateNoteById key updates in
      ret (match updated with Some n => RNote n | None => RNull end)
  | delete_note =>
      let* id := prop args "id" in
      let* key := lift (toNumber id) in
      let* deleted := deleteNoteById key in
      ret (RBool deleted)
  end.

(** [handler(args)] for whatever the lookup returned: the call passes no
    [this], so the inherited methods that start with [ToObject(this)] throw.
    [Object(args)] returns an object argument as it is and wraps a
    primitive, which serialises as the primitive does. *)
Definition callHandler (h : handlerRef) (args : value) : M world jsresult :=
  match h with
  | Own t => handle t args
  | Inherited ObjectFunction =>
      ret (RValue (match args with
                   | VUndefined | VNull => VObj []
                   | _ => args
                   end))
  | Inherited ProtoToString => ret (RString "[object Undefined]")
  | Inherited ProtoIsPrototypeOf =>
      match args with
      | VObj _ | VArr _ =>
          throw (TypeError "Cannot convert undefined or null to object")
      | _ => ret (RBool false)
      end
  | Inherited ProtoObject => throw (TypeError "handler is not a function")
  | Inherited ProtoMethod =>
      throw (TypeError "Cannot convert undefined or null to object")
  end.

(** ** The agent loop *)

(** A tool call as the model returns it. [fn_arguments] is what
    [JSON.parse(toolCall.function.arguments || "{}")] evaluates to, [None]
    when the parse throws. *)
Record toolCall := ToolCall {
  call_id : string;
  fn_name : string;
  fn_arguments : option value
}.

(** [response.choices[0].message]; [None] is a [null] or missing field. *)
Record choice := Choice {
  content : option string;
  tool_calls : option (list toolCall)
}.

(** A tool message carries the value that the source serialises with
    [JSON.stringify].  A history entry is the object the caller sent,
    spread into the working list as it is, with every property it has. *)
Inductive message :=
| SystemMessage (text : string)
| UserMessage (text : string)
| HistoryEntry (item : value)
| AssistantChoice (c : choice)
| ToolMessage (tool_call_id : string) (result : jsresult).

Record action := Action {
  tool_name : string;
  input : value;
  result : jsresult
}.

Record agentResult := AgentResult {
  reply : string;
  trail : list action
}.

(** The language model: a message list in, a choice out, or a failed call. *)
Definition model := list message -> outcome choice.

(** One invocation of [runAgent]: the machine, the working message list,
    the action trail and the message lists sent to the model so far. *)
Record agent := Agent {
  env : world;
  messages : list message;
  actions : list action;
  requests : list (list message)
}.

Definition onWorld {A} (m : M world A) : M agent A :=
  fun st =>
    let (o, w) := m (env st) in
    (o, Agent w (messages st) (actions st) (requests st)).

Definition pushMessage (m : message) : M agent unit :=
  fun st => (Ok tt, Agent (env st) (messages st ++ [m]) (actions st) (requests st)).

Definition pushAction (a : action) : M agent unit :=
  fun st => (Ok tt, Agent (env st) (messages st) (actions st ++ [a]) (requests st)).

(** [await openai.chat.completions.create({ messages, tools, ... })] *)
Definition complete (openai : model) : M agent choice :=
  fun st =>
    (openai (messages st),
     Agent (env st) (messages st) (actions st) (requests st ++ [messages st])).

Definition parseArguments (toolCall : toolCall) : M agent value :=
  match fn_arguments toolCall with
  | Some v => ret v
  | None => throw (SyntaxError "Unexpected token in JSON")
  end.

Definition SYSTEM_PROMPT : string :=
  "You are an AI assistant for a notes app. " +:+
  "Use tools to list, search, create, update, or delete notes. " +:+
  "If a note id is required, ask for clarification or search first. " +:+
  "When you complete an action, explain what changed. " +:+
  "Keep responses concise.".

Definition FALLBACK_REPLY : string :=
  "I couldn't complete that request. Try again with more detail.".

(** The body of [for (const toolCall of choice.tool_calls)]. *)
Definition dispatch (toolCall : toolCall) : M agent unit :=
  let toolName := fn_name toolCall in
  match agentHandlers toolName with
  | None =>
      let errorResult := RErrorObj ("Unknown tool: " +:+ toolName) in
      pushAction (Action toolName (VObj []) errorResult) >>
      pushMessage (ToolMessage (call_id toolCall) errorResult)
  | Some handler =>
      let* args := try_catch (parseArguments toolCall) (ret (VObj [])) in
      let* result := onWorld (callHandler handler args) in
      let normalizedResult := coalesce result (RErrorObj "No result") in
      pushAction (Action toolName args normalizedResult) >>
      pushMessage (ToolMessage (call_id toolCall) normalizedResult)
  end.

Fixpoint forEach {S A} (body : A -> M S unit) (l : list A) : M S unit :=
  match l with
  | [] => ret tt
  | x :: rest => body x >> forEach body rest
  end.

(** [for (let step = 0; step < 3; step += 1)] with [remaining] iterations
    left, followed by the fallback return. *)
Fixpoint rounds (openai : model) (remaining : nat) : M agent agentResult :=
  match remaining with
  | O => fun st => (Ok (AgentResult FALLBACK_REPLY (actions st)), st)
  | S remaining' =>
      let* choice := complete openai in
      match tool_calls choice with
      | None | Some [] =>
          fun st =>
            (Ok (AgentResult
                   (match content choice with
                    | None | Some EmptyString => "Done."
                    | Some text => text
                    end)
                   (actions st)), st)
      | Some calls =>
          pushMessage (AssistantChoice choice) >>
          forEach dispatch calls >>
          rounds openai remaining'
      end
  end.

Definition runAgent (openai : option model) (history : list message)
    (message : string) (w : world) : outcome agentResult * agent :=
  match openai with
  | None => (Throw (Error "OPENAI_API_KEY is not configured."), Agent w [] [] [])
  | Some openai =>
      rounds openai 3
        (Agent w ([SystemMessage SYSTEM_PROMPT] ++ history ++ [UserMessage message])
               [] [])
  end.

End Handlers.

(** ** The HTTP routes *)

Inductive responseBody :=
| BodyNotes (l : list note)
| BodyNote (n : note)
| BodyError (msg : string)
| BodyMessage (msg : string)
| BodyAgent (r : agentResult).

(** [res.status(s).json(b)]; a route that sets no status answers 200. *)
Record response := Response {
  status : nat;
  body : responseBody
}.

(** [error.message] *)
Definition errorMessage (e : error) : string :=
  match e with
  | TypeError msg | SyntaxError msg | Error msg => msg
  end.

(** [v?.k] *)
Definition optionalMember (v : value) (k : string) : value :=
  match v with
  | VUndefined | VNull => VUndefined
  | _ => member v k
  end.

(** The filter of the agent route over [req.body.history]. *)
Definition keepHistoryItem (item : value) : bool :=
  truthy item
  && (match member item "role" with
      | VStr role => String.eqb role "user" || String.eqb role "assistant"
      | _ => false
      end)
  && (match member item "content" with
      | VStr _ => true
      | _ => false
      end).

Section Routes.

(** [parseInt] on a route parameter, and the grammar of [Number(string)],
    both left to the runtime. *)
Variable parseInt : string -> number.
Variable StringToNumber : string -> number.

(** [GET /api/notes] *)
Definition route_getNotes : M world response :=
  let* notes := readNotes in
  ret (Response 200 (BodyNotes notes)).

(** [GET /api/notes/:id] *)
Definition route_getNote (idParam : string) : M world response :=
  let* found := getNoteById (parseInt idParam) in
  match found with
  | None => ret (Response 404 (BodyError "Note not found"))
  | Some n => ret (Response 200 (BodyNote n))
  end.

(** [POST /api/notes] *)
Definition route_postNote (reqBody : value) : M world response :=
  let* newNote := addNote (or_else reqBody (VObj [])) in
  ret (Response 201 (BodyNote newNote)).

(** [PUT /api/notes/:id] *)
Definition route_putNote (idParam : string) (reqBody : value) : M world response :=
  let* updated := updateNoteById (parseInt idParam) (or_else reqBody (VObj [])) in
  match updated with
  | None => ret (Response 404 (BodyError "Note not found"))
  | Some n => ret (Response 200 (BodyNote n))
  end.

(** [DELETE /api/notes/:id] *)
Definition route_deleteNote (idParam : string) : M world response :=
  let id := parseInt idParam in
  let* deleted := deleteNoteById id in
  if negb deleted then ret (Response 404 (BodyError "Note not found"))
  else ret (Response 200 (BodyMessage "Note deleted successfully")).

(** [GET /api/search] with [req.query.q] *)
Definition route_search (q : value) : M world response :=
  let* results := searchNotes (or_else q (VStr "")) in
  ret (Response 200 (BodyNotes results)).

(** [POST /api/agent]: the answer, and the agent invocation as it ended
    (no invocation when the message is refused). *)
Definition route_agent (openai : option model) (reqBody : value) (w : world)
    : response * agent :=
  let message := optionalMember reqBody "message" in
  let history :=
    match optionalMember reqBody "history" with
    | VArr items => map HistoryEntry (List.filter keepHistoryItem items)
    | _ => []
    end in
  if negb (truthy message) || negb (match message with VStr _ => true | _ => false end)
  then (Response 400 (BodyError "Message is required."), Agent w [] [] [])
  else
    match runAgent StringToNumber openai history
            (match message with VStr text => text | _ => "" end) w with
    | (Ok result, st) => (Response 200 (BodyAgent result), st)
    | (Throw e, st) =>
        (Response 500
           (BodyError (if String.eqb (errorMessage e) "" then "AI agent failed."
                       else errorMessage e)), st)
    end.

End Routes.

(** ** The browser client

    The list the page keeps in [notes], and what it renders from it. *)

Module Client.

(** The outcome of [renderNotes]: one card per note of [cards], in order,
    and whether the empty state is shown. *)
Record rendered := Rendered {
  cards : list note;
  emptyState : bool
}.

Definition renderNotes (notes : list note) (currentCategory : string)
    (searchValue : string) : rendered :=
  let filteredNotes := notes in
  let filteredNotes :=
    if negb (String.eqb currentCategory "all")
    then filter (fun n => Note.category n = currentCategory) filteredNotes
    else filteredNotes in
  let searchTerm := toLowerCase searchValue in
  let filteredNotes :=
    if negb (String.eqb searchTerm "")
    then filter (fun n : note =>
                   includes (toLowerCase (Note.title n)) searchTerm
                   || includes (toLowerCase (Note.text n)) searchTerm)
                filteredNotes
    else filteredNotes in
  if (length filteredNotes =? 0)%nat then Rendered [] true
  else Rendered filteredNotes false.

(** [createNote] after the response arrived: [notes.push(newNote)]. *)
Definition createNote (newNote : note) (notes : list note) : list note :=
  notes ++ [newNote].

(** [deleteNote] after the request returned:
    [notes = notes.filter(n => n.id !== id)]. *)
Definition deleteNote (id : Z) (notes : list note) : list note :=
  filter (fun n => Note.id n <> id) notes.

(** The text [updateStats] puts in the counter. *)
Definition updateStats (notes : list note) : string :=
  let count := length notes in
  pretty count +:+ " note" +:+ (if negb (count =? 1)%nat then "s" else "").

End Client.

(** ** The first version of the server

    The routes of the server before the note service was factored out. *)

Module Legacy.

Section Routes.

Variable parseInt : string -> number.

(** [DELETE /api/notes/:id] *)
Definition route_deleteNote (idParam : string) : M world response :=
  let* notes := readNotes in
  let id := parseInt idParam in
  let exists_ := existsb (fun n => bool_decide (hasId id n)) notes in
  if negb exists_ then ret (Response 404 (BodyError "Note not found"))
  else
    let notes := filter (fun n => ¬ hasId id n) notes in
    writeNotes notes >>
    ret (Response 200 (BodyMessage "Note deleted successfully")).

(** [GET /api/notes/:id] *)
Definition route_getNote (idParam : string) : M world response :=
  let* notes := readNotes in
  match snd <$> list_find (hasId (parseInt idParam)) notes with
  | None => ret (Response 404 (BodyError "Note not found"))
  | Some n => ret (Response 200 (BodyNote n))
  end.

End Routes.

End Legacy.

(** ** Strings beyond U+00FF

    A string of any code units, with [String.prototype.toLowerCase] as the
    language standard defines it: the string is read as code points, each
    code point is replaced by its lower-case mapping, except that a capital
    sigma that ends a word (it follows a cased letter, case-ignorable code
    points apart, and no cased letter follows it) becomes the final small
    sigma; the result is written back as code units.  The character data
    (the mapping, and which code points are cased or case-ignorable) is a
    [casing] table. *)

Module Utf16.

Local Open Scope N_scope.

Definition text := list N.

Definition isLead (u : N) : bool := (55296 <=? u) && (u <=? 56319).

Definition isTrail (u : N) : bool := (56320 <=? u) && (u <=? 57343).

(** StringToCodePoints *)
Fixpoint codePoints (s : text) : list N :=
  match s with
  | [] => []
  | u :: rest =>
      match rest with
      | v :: after =>
          if isLead u && isTrail v
          then (65536 + (u - 55296) * 1024 + (v - 56320)) :: codePoints after
          else u :: codePoints rest
      | [] => [u]
      end
  end.

(** UTF16EncodeCodePoint *)
Definition codeUnits (c : N) : list N :=
  if c <? 65536 then [c]
  else [55296 + (c - 65536) / 1024; 56320 + (c - 65536) mod 1024].

Record casing := Casing {
  lowerOf : N -> list N;
  cased : N -> bool;
  caseIgnorable : N -> bool
}.

Section Lower.

Variable table : casing.

(** A cased letter comes next, case-ignorable code points apart. *)
Fixpoint casedNext (l : list N) : bool :=
  match l with
  | [] => false
  | c :: rest => cased table c || (caseIgnorable table c && casedNext rest)
  end.

(** [before] holds the code points already passed, the nearest first. *)
Fixpoint lowerFrom (before l : list N) : list N :=
  match l with
  | [] => []
  | c :: rest =>
      (if (c =? 931) && casedNext before && negb (casedNext rest)
       then [962]
       else lowerOf table c)
      ++ lowerFrom (c :: before) rest
  end.

Definition toLowerCase (s : text) : text :=
  flat_map codeUnits (lowerFrom [] (codePoints s)).

End Lower.

Fixpoint startsWith (s q : text) : bool :=
  match q, s with
  | [], _ => true
  | _ :: _, [] => false
  | a :: q', b :: s' => (a =? b) && startsWith s' q'
  end.

(** [String.prototype.includes] *)
Fixpoint includes (s q : text) : bool :=
  startsWith s q ||
  match s with
  | [] => false
  | _ :: rest => includes rest q
  end.

End Utf16.

(** * Vocabulary of the statements *)

(** The collection [readNotes] returns, and the machine after
    [initDataFile]. *)
Definition collection (w : world) : list note := default [] (disk w).

Definition opened (w : world) : world := (initDataFile w).2.

Definition stored (l : list note) (w : world) : world :=
  World (Some l) (clock w) (ticks w) (S (rewrites w)).

Definition ticked (w : world) : world :=
  World (disk w) (clock w) (S (ticks w)) (rewrites w).

(** [String(v)] is not evaluated, or returns: what [normalizeCategory] and
    [normalizeColor] need of their argument in order to return. *)
Definition converts (v : value) : bool :=
  negb (truthy v) || match toString v with Ok _ => true | Throw _ => false end.

(** A payload that create and update go through with: not [null], and a
    category and a color that convert. *)
Definition acceptable (payload : value) : bool :=
  match payload with
  | VNull => false
  | _ => converts (member payload "category") && converts (member payload "color")
  end.

(** The filter of [searchNotes], over any representation of strings:
    [toLower] is [toLowerCase], [contains] is [includes]. *)
Definition searchFilter {text note : Type} (toLower : text -> text)
    (contains : text -> text -> bool) (titleOf bodyOf : note -> text)
    (query : text) (notes : list note) : list note :=
  let normalized := toLower query in
  filter (fun n : note =>
            contains (toLower (titleOf n)) normalized
            || contains (toLower (bodyOf n)) normalized) notes.

(** The category and the color that normalization returns. *)
Definition categoryOf (v : value) : string :=
  match normalizeCategory v with Ok c => c | Throw _ => "general" end.

Definition colorOf (v : value) : string :=
  match normalizeColor v with Ok c => c | Throw _ => "#ffffff" end.

(** What the four field rules and the clock reading make of the note
    being updated, for an acceptable payload. *)
Definition applyUpdates (updates : value) (now : Z) (old : note) : note :=
  Note.mk (Note.id old)
    (match member updates "title" with
     | VStr s => if String.eqb (trim s) "" then Note.title old else trim s
     | _ => Note.title old
     end)
    (match member updates "text" with
     | VStr s => trim s
     | _ => Note.text old
     end)
    (match member updates "category" with
     | VUndefined => Note.category old
     | v => categoryOf v
     end)
    (match member updates "color" with
     | VUndefined => Note.color old
     | v => colorOf v
     end)
    (Note.createdAt old) now.

(** What [buildNotePayload] returns for an acceptable payload. *)
Definition built (payload : value) : basePayload :=
  {| bp_title := match member payload "title" with
                 | VStr s => if String.eqb (trim s) "" then "Untitled" else trim s
                 | _ => "Untitled"
                 end;
     bp_text := match member payload "text" with VStr s => trim s | _ => "" end;
     bp_category := categoryOf (member payload "category");
     bp_color := colorOf (member payload "color") |}.

Definition created (payload : value) (w : world) : note :=
  Note.mk (clock w (ticks w))
    (bp_title (built payload)) (bp_text (built payload))
    (bp_category (built payload)) (bp_color (built payload))
    (clock w (S (ticks w))) (clock w (S (S (ticks w)))).

Definition allowedCategory (c : string) : Prop :=
  c = "general" \/ c = "personal" \/ c = "work" \/ c = "ideas".

(** The requests of the HTTP surface, each served by one note-service call. *)
Inductive request :=
| Create (payload : value)
| Get (id : number)
| Update (id : number) (updates : value)
| Delete (id : number)
| Search (query : value)
| ListAll.

Definition serve (r : request) (w : world) : world :=
  match r with
  | Create payload => (addNote payload w).2
  | Get id => (getNoteById id w).2
  | Update id updates => (updateNoteById id updates w).2
  | Delete id => (deleteNoteById id w).2
  | Search query => (searchNotes query w).2
  | ListAll => (readNotes w).2
  end.

(** The machines the server can be in: it starts without a data file, and
    every request moves it on. *)
Inductive reachable : world -> Prop :=
| reach_start c t r : reachable (World None c t r)
| reach_serve w r : reachable w -> reachable (serve r w).

Definition wellCategorized (w : world) : Prop :=
  Forall (fun n => allowedCategory (Note.category n)) (collection w).

(** A payload whose fields are strings or absent. *)
Definition field (k : string) (o : option string) : list (string * value) :=
  match o with
  | Some s => [(k, VStr s)]
  | None => []
  end.

Definition payloadOf (title text category color : option string) : value :=
  VObj (field "title" title ++ field "text" text
        ++ field "category" category ++ field "color" color).

(** Equal up to letter case, and occurrence up to letter case. *)
Definition ciEqual (a b : string) : Prop := toLowerCase a = toLowerCase b.

Definition ciSubstring (q s : string) : Prop :=
  exists pre mid post, s = pre +:+ mid +:+ post /\ ciEqual mid q.

(** The same letter, whatever the case: the capital letters of the range
    U+0000..U+00FF are [A] to [Z] and U+00C0 to U+00DE without the
    multiplication sign, each 32 below its small letter. *)
Definition isCapital (c : ascii) : bool :=
  let n := N_of_ascii c in
  ((65 <=? n) && (n <=? 90)
   || (192 <=? n) && (n <=? 222) && negb (n =? 215))%N.

Definition sameLetter (a b : ascii) : bool :=
  let x := N_of_ascii a in
  let y := N_of_ascii b in
  ((x =? y) || isCapital a && (y =? x + 32) || isCapital b && (x =? y + 32))%N.

Fixpoint sameText (a b : string) : bool :=
  match a, b with
  | EmptyString, EmptyString => true
  | String x a', String y b' => sameLetter x y && sameText a' b'
  | _, _ => false
  end.

(** [q] occurs in [s] up to the case of its letters. *)
Definition occursUpToCase (q s : string) : Prop :=
  exists pre mid post, s = pre +:+ mid +:+ post /\ sameText mid q = true.

Definition allAscii : list ascii := map ascii_of_nat (seq 0 256).

Definition parsedArguments (tc : toolCall) : value :=
  default (VObj []) (fn_arguments tc).

(** One agent round that dispatches tools: the model answers the working
    message list with a non-empty list of tool calls, and dispatching them
    in order completes. *)
Definition toolRound (StringToNumber : string -> number) (openai : model)
    (st st' : agent) : Prop :=
  exists c calls,
    (complete openai st).1 = Ok c /\
    tool_calls c = Some calls /\ calls <> [] /\
    (pushMessage (AssistantChoice c) >> forEach (dispatch StringToNumber) calls)
      (complete openai st).2 = (Ok tt, st').

(** A note as the service leaves it: a title that is not empty, and a
    title and a text that carry no white space at either end. *)
Definition wellShaped (n : note) : Prop :=
  Note.title n <> "" /\ trim (Note.title n) = Note.title n
  /\ trim (Note.text n) = Note.text n.

(** A clock that moves on between any two readings. *)
Definition risingClock (c : nat -> Z) : Prop :=
  forall i j, (i < j)%nat -> c i < c j.

(** The results carried by the tool messages of a message list, in order. *)
Definition toolResults (l : list message) : list jsresult :=
  omap (fun m => match m with
                 | ToolMessage _ r => Some r
                 | _ => None
                 end) l.

(** The messages a caller may supply as history: the objects of the
    request whose role is user or assistant and whose content is a
    string, each as it was sent. *)
Definition conversational (m : message) : Prop :=
  exists item role text,
    m = HistoryEntry item /\ member item "role" = VStr role /\
    (role = "user" \/ role = "assistant") /\ member item "content" = VStr text.

(** A string that does not start with white space. *)
Definition headKept (s : string) : Prop :=
  match s with
  | EmptyString => True
  | String c _ => isWhiteSpace c = false
  end.

(** The ids of the stored notes are earlier clock readings. *)
Definition stamped (w : world) : Prop :=
  forall n, n ∈ collection w -> exists k, (k < ticks w)%nat /\ Note.id n = clock w k.

(** The requests sent so far extend [base], extend one another in the order
    sent, and are extended by the working message list. *)
Definition chained (base : list message) (st : agent) : Prop :=
  base `prefix_of` messages st /\
  (forall r, r ∈ requests st -> base `prefix_of` r /\ r `prefix_of` messages st) /\
  (forall i j a b, (i <= j)%nat -> requests st !! i = Some a ->
                   requests st !! j = Some b -> a `prefix_of` b).

(** The tool results in the working message list are [base] followed by the
    results of the action trail. *)
Definition audited (base : list jsresult) (st : agent) : Prop :=
  toolResults (messages st) = base ++ (result <$> actions st).

(** The history the agent route hands to [runAgent]. *)
Definition requestHistory (reqBody : value) : list message :=
  match optionalMember reqBody "history" with
  | VArr items => map HistoryEntry (List.filter keepHistoryItem items)
  | _ => []
  end.

(** * Sample data *)

Definition sampleClock : nat -> Z := fun k => 1000 + Z.of_nat k.

Definition sampleNote : note :=
  Note.mk 41 "Groceries" "Milk and Eggs" "personal" "#ffeeaa" 41 57.

Definition sampleWorld : world := World (Some [sampleNote]) sampleClock 0 0.

Definition freshWorld : world := World None sampleClock 0 0.

(** No string is converted to a number in the rounds below. *)
Definition sampleStringToNumber : string -> number := fun _ => NaN.

Definition callUnknown : toolCall := ToolCall "call_0" "summarize_notes" None.

Definition callUpdate : toolCall :=
  ToolCall "call_1" "update_note"
    (Some (VObj [("id", VNum 123456); ("title", VStr "Plans")])).

Definition callDelete : toolCall :=
  ToolCall "call_2" "delete_note" (Some (VObj [("id", VNum 123456)])).

Definition sampleAgent : agent := Agent sampleWorld [] [] [].

(** A model that answers every request with the same two tool calls. *)
Definition persistentModel : model :=
  fun _ => Ok (Choice None (Some [callUnknown; callDelete])).

Definition sampleStart : agent :=
  Agent sampleWorld [SystemMessage SYSTEM_PROMPT; UserMessage "tidy up"] [] [].

Definition roundEnd (st : agent) : agent :=
  ((pushMessage (AssistantChoice (Choice None (Some [callUnknown; callDelete])))
    >> forEach (dispatch sampleStringToNumber) [callUnknown; callDelete])
     (complete persistentModel st).2).2.

(** A model that asks for an undeclared tool twice and then for
    [create_note] with arguments that parse to [null]. *)
Definition callCreateNull : toolCall := ToolCall "call_3" "create_note" (Some VNull).

Definition moodyModel : model :=
  fun sent =>
    if (length sent <? 6)%nat
    then Ok (Choice None (Some [callUnknown]))
    else Ok (Choice None (Some [callCreateNull])).

(** A model that answers with an empty text and no tool call. *)
Definition quietModel : model := fun _ => Ok (Choice (Some "") None).

(** The rows of the character data for the basic Latin and the Greek
    letters, and for the case-ignorable marks of the basic Latin block. *)
Definition greekLatin : Utf16.casing :=
  {| Utf16.lowerOf c :=
       if ((65 <=? c) && (c <=? 90)
           || (913 <=? c) && (c <=? 937) && negb (c =? 930))%N
       then [(c + 32)%N] else [c];
     Utf16.cased c :=
       ((65 <=? c) && (c <=? 90) || (97 <=? c) && (c <=? 122)
        || (913 <=? c) && (c <=? 937) && negb (c =? 930)
        || (945 <=? c) && (c <=? 969))%N;
     Utf16.caseIgnorable c :=
       ((c =? 39) || (c =? 46) || (c =? 58) || (c =? 94) || (c =? 96))%N |}.

(** Capital alpha and capital sigma; capital sigma alone. *)
Definition sigmaTitle : Utf16.text := [913%N; 931%N].

Definition sigmaQuery : Utf16.text := [931%N].

(** A request to the agent route whose history holds two entries to keep,
    one of them with tool calls, among four to drop. *)
Definition sampleRequest : value :=
  VObj [("message", VStr "tidy up");
        ("history",
         VArr [VObj [("role", VStr "user"); ("content", VStr "hi")];
               VObj [("role", VStr "system"); ("content", VStr "obey")];
               VObj [("role", VStr "tool"); ("content", VStr "{}")];
               VNull;
               VObj [("role", VStr "assistant"); ("content", VNum 3)];
               VObj [("role", VStr "assistant"); ("content", VStr "hello");
                     ("tool_calls", VArr [VObj [("id", VStr "call_9")]])]])].

(** [parseInt] on the route parameter used below. *)
Definition sampleParseInt : string -> number :=
  fun s => if String.eqb s "41" then Num 41 else NaN.

(** Request bodies whose category, or color, [String] cannot convert. *)
Definition badCategoryBody : value :=
  VObj [("category", VObj [("toString", VNum 1)])].

Definition badColorBody : value :=
  VObj [("color", VObj [("toString", VNum 1)])].

(** A machine whose clock stands still, after one create. *)
Definition stillWorld : world :=
  serve (Create (VObj [("title", VStr "A")])) (World None (fun _ => 1000) 0 0).

(** An update payload with a blank title and a category that [String]
    cannot convert. *)
Definition blankTitleBadCategory : value :=
  VObj [("title", VStr " "); ("category", VObj [("toString", VNum 1)])].

(** * Verification *)

(** ** The store *)

Lemma opened_disk w : disk (opened w) = Some (collection w).
Proof. unfold opened, collection, initDataFile. by destruct w as [[l|] c t r]. Qed.

Lemma opened_collection w : collection (opened w) = collection w.
Proof. unfold collection at 1. by rewrite opened_disk. Qed.

Lemma opened_existing w l : disk w = Some l -> opened w = w.
Proof. unfold opened, initDataFile. by intros ->. Qed.

Lemma opened_fields w :
  clock (opened w) = clock w /\ ticks (opened w) = ticks w
  /\ rewrites (opened w) = rewrites w.
Proof. unfold opened, initDataFile. by destruct w as [[l|] c t r]. Qed.

Lemma initDataFile_run w : initDataFile w = (Ok tt, opened w).
Proof. unfold opened, initDataFile. by destruct w as [[l|] c t r]. Qed.

Lemma readNotes_run w : readNotes w = (Ok (collection w), opened w).
Proof.
  unfold readNotes, bind. rewrite initDataFile_run.
  by rewrite opened_disk.
Qed.

Lemma writeNotes_run l w : writeNotes l w = (Ok tt, stored l w).
Proof.
  unfold writeNotes, bind, stored. rewrite initDataFile_run.
  by destruct (opened_fields w) as (-> & -> & ->).
Qed.

Lemma dateNow_run w : dateNow w = (Ok (clock w (ticks w)), ticked w).
Proof. reflexivity. Qed.

Lemma bind_run {S A B} (m : M S A) (k : A -> M S B) s :
  bind m k s = match m s with
               | (Ok a, s') => k a s'
               | (Throw e, s') => (Throw e, s')
               end.
Proof. reflexivity. Qed.

Lemma bind_ret {S A B} (a : A) (k : A -> M S B) s : bind (ret a) k s = k a s.
Proof. reflexivity. Qed.

Lemma prop_defined {S} (v : value) k :
  v <> VNull -> v <> VUndefined -> @prop S v k = ret (member v k).
Proof. by destruct v. Qed.

Lemma null_dec (v : value) : {v = VNull} + {v <> VNull}.
Proof. destruct v; (by left) || (by right). Qed.

Lemma defaulted_defined v : defaulted v <> VUndefined.
Proof. by destruct v. Qed.

Lemma defaulted_null v : defaulted v = VNull <-> v = VNull.
Proof. by destruct v. Qed.

Lemma member_defaulted v k : member (defaulted v) k = member v k.
Proof. by destruct v. Qed.

(** ** Lookup by id *)

Lemma getNoteById_run id w :
  getNoteById id w = (Ok (snd <$> list_find (hasId id) (collection w)), opened w).
Proof. unfold getNoteById. by rewrite bind_run, readNotes_run. Qed.

Lemma find_none_filter id (l : list note) :
  list_find (hasId id) l = None -> filter (fun n => ¬ hasId id n) l = l.
Proof.
  rewrite list_find_None. induction 1 as [|n l Hn _ IH]; [done|].
  by rewrite filter_cons_True, IH.
Qed.

Lemma filter_same_length {A} (P : A -> Prop) `{!forall x, Decision (P x)} (l : list A) :
  length (filter P l) = length l -> filter P l = l.
Proof.
  induction l as [|x l IH]; [done|]. rewrite filter_cons.
  destruct (decide (P x)); simpl; intros Hlen.
  - f_equal. apply IH. lia.
  - pose proof (length_filter P l). lia.
Qed.

Lemma find_in_filtered id (l : list note) :
  list_find (hasId id) (filter (fun n => ¬ hasId id n) l) = None.
Proof.
  apply list_find_None, Forall_forall. intros n Hn.
  by apply list_elem_of_filter in Hn as [? _].
Qed.

(** ** The closed forms of update and delete *)

Lemma updateNoteById_missing id updates w :
  list_find (hasId id) (collection w) = None ->
  updateNoteById id updates w = (Ok None, opened w).
Proof.
  intros Hfind. unfold updateNoteById.
  by rewrite bind_run, readNotes_run, Hfind.
Qed.

Lemma bind_lift_ok {S A B} (a : A) (k : A -> M S B) s :
  bind (lift (Ok a)) k s = k a s.
Proof. reflexivity. Qed.

Lemma bind_lift_throw {S A B} e (k : A -> M S B) s :
  bind (lift (Throw e)) k s = (Throw e, s).
Proof. reflexivity. Qed.

Lemma normalizeCategory_converts v :
  converts v = true -> normalizeCategory v = Ok (categoryOf v).
Proof.
  unfold converts, categoryOf, normalizeCategory.
  destruct (negb (truthy v)); [done|]. by destruct (toString v).
Qed.

Lemma normalizeColor_converts v :
  converts v = true -> normalizeColor v = Ok (colorOf v).
Proof.
  unfold converts, colorOf, normalizeColor.
  destruct (negb (truthy v)); [done|]. by destruct (toString v).
Qed.

Lemma normalizeCategory_stuck v :
  converts v = false -> exists e, normalizeCategory v = Throw e.
Proof.
  unfold converts, normalizeCategory.
  destruct (negb (truthy v)); [done|]. destruct (toString v); [done|by eexists].
Qed.

Lemma normalizeColor_stuck v :
  converts v = false -> exists e, normalizeColor v = Throw e.
Proof.
  unfold converts, normalizeColor.
  destruct (negb (truthy v)); [done|]. destruct (toString v); [done|by eexists].
Qed.

Lemma acceptable_spec payload :
  acceptable payload = true <->
  payload <> VNull /\ converts (member payload "category") = true
  /\ converts (member payload "color") = true.
Proof.
  unfold acceptable.
  destruct payload; rewrite ?andb_true_iff; (split; [|tauto]);
    try (intros (? & ?); split_and!; done); done.
Qed.

Lemma acceptable_false payload :
  acceptable payload = false ->
  payload = VNull \/ converts (member payload "category") = false
  \/ (converts (member payload "category") = true
      /\ converts (member payload "color") = false).
Proof.
  unfold acceptable. destruct payload; auto;
    destruct (converts (member _ "category")); simpl; auto.
Qed.

(** The assignment of the category, and of the color, in an update. *)
Lemma category_assigned {S} v (next : note) (s : S) :
  converts v = true ->
  match v with
  | VUndefined => ret next
  | _ => let* category := lift (normalizeCategory v) in
         ret (Note.set_category category next)
  end s
  = (Ok match v with
        | VUndefined => next
        | _ => Note.set_category (categoryOf v) next
        end, s).
Proof.
  intros Hv. destruct v; try done;
    by rewrite (normalizeCategory_converts _ Hv), bind_lift_ok.
Qed.

Lemma color_assigned {S} v (next : note) (s : S) :
  converts v = true ->
  match v with
  | VUndefined => ret next
  | _ => let* color := lift (normalizeColor v) in
         ret (Note.set_color color next)
  end s
  = (Ok match v with
        | VUndefined => next
        | _ => Note.set_color (colorOf v) next
        end, s).
Proof.
  intros Hv. destruct v; try done;
    by rewrite (normalizeColor_converts _ Hv), bind_lift_ok.
Qed.

Lemma category_refused {S} v (next : note) (s : S) :
  converts v = false ->
  exists e,
    match v with
    | VUndefined => ret next
    | _ => let* category := lift (normalizeCategory v) in
           ret (Note.set_category category next)
    end s = (Throw e, s).
Proof.
  intros Hv. destruct (normalizeCategory_stuck v Hv) as [e He].
  exists e. destruct v; try done; by rewrite He, bind_lift_throw.
Qed.

Lemma color_refused {S} v (next : note) (s : S) :
  converts v = false ->
  exists e,
    match v with
    | VUndefined => ret next
    | _ => let* color := lift (normalizeColor v) in
           ret (Note.set_color color next)
    end s = (Throw e, s).
Proof.
  intros Hv. destruct (normalizeColor_stuck v Hv) as [e He].
  exists e. destruct v; try done; by rewrite He, bind_lift_throw.
Qed.

Lemma updateNoteById_found id updates w index old :
  list_find (hasId id) (collection w) = Some (index, old) ->
  acceptable updates = true ->
  let next := applyUpdates updates (clock w (ticks w)) old in
  updateNoteById id updates w =
    (Ok (Some next), stored (<[index := next]> (collection w)) (ticked (opened w))).
Proof.
  intros Hfind (Hnull & Hcat & Hcol)%acceptable_spec next. unfold updateNoteById.
  rewrite bind_run, readNotes_run, Hfind.
  assert (Hprop : forall k, @prop world (defaulted updates) k = ret (member updates k)).
  { intros k. rewrite prop_defined, member_defaulted; [done| |apply defaulted_defined].
    by rewrite defaulted_null. }
  cbv zeta. rewrite Hprop, bind_ret. cbv beta.
  rewrite Hprop, bind_ret. cbv beta.
  rewrite Hprop, bind_ret. cbv beta.
  rewrite bind_run, (category_assigned _ _ _ Hcat).
  rewrite Hprop, bind_ret. cbv beta.
  rewrite bind_run, (color_assigned _ _ _ Hcol).
  rewrite bind_run, dateNow_run, bind_run, writeNotes_run.
  destruct (opened_fields w) as (Hc & Ht & _).
  unfold ret. rewrite Hc, Ht.
  match goal with
  | |- (Ok (Some ?x), _) = _ => assert (x = next) as ->
  end; [|reflexivity].
  unfold next, applyUpdates.
  destruct old as [i t x c col cr up].
  destruct (member updates "title"), (member updates "text"),
    (member updates "category"), (member updates "color"); reflexivity.
Qed.

Lemma updateNoteById_null id w index old :
  list_find (hasId id) (collection w) = Some (index, old) ->
  exists e, updateNoteById id VNull w = (Throw e, opened w).
Proof.
  intros Hfind. unfold updateNoteById.
  rewrite bind_run, readNotes_run, Hfind. by eexists.
Qed.

Lemma updateNoteById_rejected id updates w index old :
  list_find (hasId id) (collection w) = Some (index, old) ->
  acceptable updates = false ->
  exists e, updateNoteById id updates w = (Throw e, opened w).
Proof.
  intros Hfind [->|Hbad]%acceptable_false; [by eapply updateNoteById_null|].
  destruct (null_dec updates) as [->|Hnull]; [by eapply updateNoteById_null|].
  unfold updateNoteById. rewrite bind_run, readNotes_run, Hfind.
  assert (Hprop : forall k, @prop world (defaulted updates) k = ret (member updates k)).
  { intros k. rewrite prop_defined, member_defaulted; [done| |apply defaulted_defined].
    by rewrite defaulted_null. }
  cbv zeta. rewrite Hprop, bind_ret. cbv beta.
  rewrite Hprop, bind_ret. cbv beta.
  rewrite Hprop, bind_ret. cbv beta. rewrite bind_run.
  destruct Hbad as [Hcat|[Hcat Hcol]].
  - match goal with
    | |- context [match member updates "category" with _ => _ end ?s] =>
        destruct (category_refused (member updates "category")
                    match member updates "text" with
                    | VStr s0 => Note.set_text (trim s0)
                        match member updates "title" with
                        | VStr s1 =>
                            Note.set_title
                              (if String.eqb (trim s1) "" then Note.title old
                               else trim s1) old
                        | _ => old
                        end
                    | _ => match member updates "title" with
                           | VStr s1 =>
                               Note.set_title
                                 (if String.eqb (trim s1) "" then Note.title old
                                  else trim s1) old
                           | _ => old
                           end
                    end s Hcat) as [e He]
    end.
    exists e. by rewrite He.
  - rewrite (category_assigned _ _ _ Hcat).
    rewrite Hprop, bind_ret. cbv beta. rewrite bind_run.
    match goal with
    | |- context [match member updates "color" with
                  | VUndefined => ret ?n
                  | _ => _
                  end ?s] =>
        destruct (color_refused (member updates "color") n s Hcol) as [e He]
    end.
    exists e. by rewrite He.
Qed.

Lemma deleteNoteById_run id w :
  let nextNotes := filter (fun n => ¬ hasId id n) (collection w) in
  deleteNoteById id w =
    if decide (nextNotes = collection w) then (Ok false, opened w)
    else (Ok true, stored nextNotes (opened w)).
Proof.
  intros nextNotes. unfold deleteNoteById.
  rewrite bind_run, readNotes_run. fold nextNotes.
  destruct (decide (nextNotes = collection w)) as [Heq|Hne].
  - rewrite Heq, Nat.eqb_refl. reflexivity.
  - destruct (Nat.eqb_spec (length nextNotes) (length (collection w))) as [Hlen|_].
    + destruct Hne. by apply filter_same_length.
    + by rewrite bind_run, writeNotes_run.
Qed.

Lemma collection_stored l w : collection (stored l w) = l.
Proof. reflexivity. Qed.

Lemma getNoteById_Some id w old :
  (getNoteById id w).1 = Ok (Some old) <->
  exists index, list_find (hasId id) (collection w) = Some (index, old).
Proof.
  rewrite getNoteById_run. simpl. split.
  - intros [= Hfind]. destruct (list_find _ _) as [[i n]|]; simplify_eq/=. eauto.
  - by intros [i ->].
Qed.

Lemma find_after_replace id (l : list note) index old next :
  list_find (hasId id) l = Some (index, old) ->
  hasId id next ->
  list_find (hasId id) (<[index := next]> l) = Some (index, next).
Proof.
  intros (Hlook & _ & Hleast)%list_find_Some Hnext.
  apply list_find_insert_Some. right; left.
  split_and!; eauto using lookup_lt_Some.
Qed.

(** C7. An id that matches no stored note: update answers [null] and
    delete answers [false]; neither calls [writeNotes], the collection read
    back is the same, and an existing data file leaves the machine exactly
    as it was. *)
Theorem unknown_id_not_found id updates w :
  (forall n, n ∈ collection w -> ¬ hasId id n) ->
  exists wu wd,
    updateNoteById id updates w = (Ok None, wu) /\
    deleteNoteById id w = (Ok false, wd) /\
    (collection wu = collection w /\ rewrites wu = rewrites w
     /\ forall l, disk w = Some l -> wu = w) /\
    (collection wd = collection w /\ rewrites wd = rewrites w
     /\ forall l, disk w = Some l -> wd = w).
Proof.
  intros Hnone.
  assert (Hfind : list_find (hasId id) (collection w) = None).
  { apply list_find_None, Forall_forall. exact Hnone. }
  exists (opened w), (opened w). split_and!.
  - by apply updateNoteById_missing.
  - rewrite deleteNoteById_run. simpl.
    by rewrite decide_True by by apply find_none_filter.
  - apply opened_collection.
  - apply opened_fields.
  - intros l Hl. by apply opened_existing with l.
  - apply opened_collection.
  - apply opened_fields.
  - intros l Hl. by apply opened_existing with l.
Qed.

Lemma unknown_id_not_found_witness :
  exists wu wd,
    updateNoteById (Num 123456) (VObj [("text", VStr "")]) sampleWorld = (Ok None, wu) /\
    deleteNoteById (Num 123456) sampleWorld = (Ok false, wd) /\
    (collection wu = collection sampleWorld /\ rewrites wu = rewrites sampleWorld
     /\ forall l, disk sampleWorld = Some l -> wu = sampleWorld) /\
    (collection wd = collection sampleWorld /\ rewrites wd = rewrites sampleWorld
     /\ forall l, disk sampleWorld = Some l -> wd = sampleWorld).
Proof.
  apply (unknown_id_not_found (Num 123456) (VObj [("text", VStr "")]) sampleWorld).
  intros n Hn. apply list_elem_of_singleton in Hn as ->. vm_compute. congruence.
Defined.

(** C9. After [delete(id)], whether it removed a note or not, [get(id)]
    finds nothing. *)
Theorem delete_then_get id w :
  exists deleted w1,
    deleteNoteById id w = (Ok deleted, w1) /\
    (getNoteById id w1).1 = Ok None.
Proof.
  rewrite deleteNoteById_run. simpl.
  destruct (decide _) as [Heq|Hne]; do 2 eexists; (split; [reflexivity|]);
    rewrite getNoteById_run; simpl.
  - rewrite opened_collection, <- Heq. by rewrite find_in_filtered.
  - rewrite collection_stored. by rewrite find_in_filtered.
Qed.

(** C6 as the spec has it does not hold: a note created while the clock
    stands still carries the reading as its [updatedAt], and the empty
    update made at the same reading returns the note as it was, [updatedAt]
    included. *)
Lemma empty_update_same_stamp :
  reachable stillWorld /\
  exists old w',
    (getNoteById (Num 1000) stillWorld).1 = Ok (Some old) /\
    updateNoteById (Num 1000) (VObj []) stillWorld = (Ok (Some old), w') /\
    collection w' = collection stillWorld.
Proof.
  split; [apply reach_serve, reach_start|].
  do 2 eexists. split_and!; vm_compute; reflexivity.
Qed.

(** C6, amended. Updating an existing note with the empty payload gives the
    same note with [updatedAt] set to the clock reading of the update, a
    change whenever that reading differs from the stored stamp, and that
    note is the one stored; any successful update keeps [id] and
    [createdAt], keeps every field the payload does not carry, and sets
    [updatedAt] to the clock reading. *)
Theorem update_frame id w old :
  (getNoteById id w).1 = Ok (Some old) ->
  (exists next w',
      updateNoteById id (VObj []) w = (Ok (Some next), w') /\
      next = Note.mk (Note.id old) (Note.title old) (Note.text old)
               (Note.category old) (Note.color old) (Note.createdAt old)
               (clock w (ticks w)) /\
      (clock w (ticks w) <> Note.updatedAt old ->
       Note.updatedAt next <> Note.updatedAt old) /\
      (getNoteById id w').1 = Ok (Some next)) /\
  (forall updates next w',
      updateNoteById id updates w = (Ok (Some next), w') ->
      Note.id next = Note.id old /\
      Note.createdAt next = Note.createdAt old /\
      Note.updatedAt next = clock w (ticks w) /\
      (member updates "title" = VUndefined -> Note.title next = Note.title old) /\
      (member updates "text" = VUndefined -> Note.text next = Note.text old) /\
      (member updates "category" = VUndefined ->
       Note.category next = Note.category old) /\
      (member updates "color" = VUndefined -> Note.color next = Note.color old) /\
      (getNoteById id w').1 = Ok (Some next)).
Proof.
  intros [index Hfind]%getNoteById_Some.
  pose proof (proj1 (list_find_Some _ _ _ _) Hfind) as (_ & Hid & _).
  split.
  - do 2 eexists. split; [by apply updateNoteById_found|]. split; [done|].
    split; [done|].
    apply getNoteById_Some. exists index. rewrite collection_stored.
    by apply (find_after_replace id _ index old).
  - intros updates next w' Hrun.
    destruct (acceptable updates) eqn:Hacc; cycle 1.
    { destruct (updateNoteById_rejected id updates w index old Hfind Hacc) as [e He].
      rewrite He in Hrun. discriminate. }
    rewrite (updateNoteById_found id updates w index old Hfind Hacc) in Hrun.
    injection Hrun as <- <-. split_and!; try reflexivity.
    + intros Hm. unfold applyUpdates. simpl. by rewrite Hm.
    + intros Hm. unfold applyUpdates. simpl. by rewrite Hm.
    + intros Hm. unfold applyUpdates. simpl. by rewrite Hm.
    + intros Hm. unfold applyUpdates. simpl. by rewrite Hm.
    + apply getNoteById_Some. exists index. rewrite collection_stored.
      by apply (find_after_replace id _ index old).
Qed.

Lemma update_frame_witness :
  (exists next w',
      updateNoteById (Num 41) (VObj []) sampleWorld = (Ok (Some next), w') /\
      next = Note.mk 41 "Groceries" "Milk and Eggs" "personal" "#ffeeaa" 41 1000 /\
      (1000 <> 57 -> Note.updatedAt next <> 57) /\
      (getNoteById (Num 41) w').1 = Ok (Some next)).
Proof.
  refine (proj1 (update_frame (Num 41) sampleWorld sampleNote _)).
  vm_compute. reflexivity.
Defined.

(** C10 as the spec has it does not hold for every payload: with a blank
    title and a category that cannot be converted to a string, the update
    throws and stores nothing. *)
Lemma blank_title_update_throws :
  (getNoteById (Num 41) sampleWorld).1 = Ok (Some sampleNote) /\
  member blankTitleBadCategory "title" = VStr " " /\
  trim " " = "" /\
  exists e w',
    updateNoteById (Num 41) blankTitleBadCategory sampleWorld = (Throw e, w') /\
    collection w' = collection sampleWorld /\
    rewrites w' = rewrites sampleWorld.
Proof. split_and!; try (do 2 eexists; split_and!); vm_compute; reflexivity. Qed.

(** C10, amended. A title that is a string but blank after trimming leaves
    the stored title as it was: when the category and the color of the
    payload, if present, convert to strings, the update succeeds, keeps
    the title, sets [updatedAt] to the clock reading and stores the note;
    when one of them does not convert, the update throws and the machine
    is the one [readNotes] left. *)
Theorem blank_title_keeps_title id w old updates s :
  (getNoteById id w).1 = Ok (Some old) ->
  member updates "title" = VStr s ->
  trim s = "" ->
  (converts (member updates "category") = true ->
   converts (member updates "color") = true ->
   exists next w',
     updateNoteById id updates w = (Ok (Some next), w') /\
     Note.title next = Note.title old /\
     Note.updatedAt next = clock w (ticks w) /\
     (clock w (ticks w) <> Note.updatedAt old ->
      Note.updatedAt next <> Note.updatedAt old) /\
     (getNoteById id w').1 = Ok (Some next)) /\
  (converts (member updates "category") && converts (member updates "color")
     = false ->
   exists e, updateNoteById id updates w = (Throw e, opened w)).
Proof.
  intros [index Hfind]%getNoteById_Some Htitle Hblank.
  pose proof (proj1 (list_find_Some _ _ _ _) Hfind) as (_ & Hid & _).
  assert (Hnull : updates <> VNull) by (intros ->; discriminate).
  split.
  - intros Hcat Hcol.
    assert (Hacc : acceptable updates = true) by by apply acceptable_spec.
    do 2 eexists. split; [by apply updateNoteById_found|].
    split_and!.
    + unfold applyUpdates. simpl. by rewrite Htitle, Hblank.
    + done.
    + done.
    + apply getNoteById_Some. exists index. rewrite collection_stored.
      by apply (find_after_replace id _ index old).
  - intros Hbad. apply (updateNoteById_rejected id updates w index old Hfind).
    destruct (acceptable updates) eqn:Hacc; [|done].
    apply acceptable_spec in Hacc as (_ & Hcat & Hcol).
    by rewrite Hcat, Hcol in Hbad.
Qed.

Lemma blank_title_keeps_title_witness :
  exists next w',
    updateNoteById (Num 41) (VObj [("title", VStr "   ")]) sampleWorld
      = (Ok (Some next), w') /\
    Note.title next = "Groceries" /\
    Note.updatedAt next = 1000 /\
    (1000 <> 57 -> Note.updatedAt next <> 57) /\
    (getNoteById (Num 41) w').1 = Ok (Some next).
Proof.
  apply (blank_title_keeps_title (Num 41) sampleWorld sampleNote
           (VObj [("title", VStr "   ")]) "   "); vm_compute; reflexivity.
Defined.

(** ** Creation *)

Lemma prop_payload {S} payload k :
  payload <> VNull -> @prop S (defaulted payload) k = ret (member payload k).
Proof.
  intros Hnull.
  rewrite prop_defined, member_defaulted; [done| |apply defaulted_defined].
  by rewrite defaulted_null.
Qed.

Lemma buildNotePayload_run {S} payload (s : S) :
  acceptable payload = true -> buildNotePayload payload s = (Ok (built payload), s).
Proof.
  intros (Hnull & Hcat & Hcol)%acceptable_spec. unfold buildNotePayload.
  rewrite !prop_payload by done.
  rewrite bind_ret, bind_ret, bind_ret.
  rewrite (normalizeCategory_converts _ Hcat), bind_lift_ok, bind_ret.
  by rewrite (normalizeColor_converts _ Hcol), bind_lift_ok.
Qed.

Lemma buildNotePayload_rejected {S} payload (s : S) :
  acceptable payload = false -> exists e, buildNotePayload payload s = (Throw e, s).
Proof.
  intros [->|Hbad]%acceptable_false; [by eexists|].
  assert (Hnull : payload <> VNull).
  { intros ->. by destruct Hbad as [Hbad|[_ Hbad]]. }
  unfold buildNotePayload. rewrite !prop_payload by done.
  rewrite bind_ret, bind_ret, bind_ret.
  destruct Hbad as [Hcat|[Hcat Hcol]].
  - destruct (normalizeCategory_stuck _ Hcat) as [e He]. exists e.
    by rewrite He, bind_lift_throw.
  - destruct (normalizeColor_stuck _ Hcol) as [e He]. exists e.
    by rewrite (normalizeCategory_converts _ Hcat), bind_lift_ok, bind_ret,
      He, bind_lift_throw.
Qed.

Lemma addNote_run payload w :
  acceptable payload = true ->
  addNote payload w =
    (Ok (created payload w),
     stored (collection w ++ [created payload w])
            (ticked (ticked (ticked (opened w))))).
Proof.
  intros Hacc. unfold addNote.
  rewrite bind_run, readNotes_run, bind_run, buildNotePayload_run by done.
  rewrite bind_run, dateNow_run, bind_run, dateNow_run, bind_run, dateNow_run.
  cbv zeta. rewrite bind_run, writeNotes_run.
  destruct (opened_fields w) as (Hc & Ht & _).
  unfold created, ret. cbn [ticked clock ticks]. by rewrite Hc, Ht.
Qed.

Lemma addNote_rejected payload w :
  acceptable payload = false -> exists e, addNote payload w = (Throw e, opened w).
Proof.
  intros Hacc. unfold addNote.
  destruct (buildNotePayload_rejected payload (opened w) Hacc) as [e He].
  exists e. by rewrite bind_run, readNotes_run, bind_run, He.
Qed.

(** ** Categories *)

Lemma allowed_elem_of c : c ∈ ALLOWED_CATEGORIES <-> allowedCategory c.
Proof.
  unfold ALLOWED_CATEGORIES, allowedCategory.
  rewrite !elem_of_union, !elem_of_singleton. tauto.
Qed.

Lemma normalizeCategory_allowed v c :
  normalizeCategory v = Ok c -> allowedCategory c.
Proof.
  unfold normalizeCategory. destruct (negb (truthy v)).
  { intros [= <-]. by left. }
  destruct (toString v) as [shown|e]; [|done]. cbv zeta.
  case_decide as Hin; intros [= <-]; [by apply allowed_elem_of|by left].
Qed.

Lemma categoryOf_allowed v : allowedCategory (categoryOf v).
Proof.
  unfold categoryOf. destruct (normalizeCategory v) as [c|e] eqn:Hc.
  - by eapply normalizeCategory_allowed.
  - by left.
Qed.

Lemma searchNotes_run query w :
  searchNotes query w =
    match toString (or_else query (VStr "")) with
    | Ok shown =>
        (Ok (searchFilter toLowerCase includes Note.title Note.text shown
               (collection w)), opened w)
    | Throw e => (Throw e, w)
    end.
Proof.
  unfold searchNotes. destruct (toString _) as [shown|e].
  - by rewrite bind_lift_ok, bind_run, readNotes_run.
  - by rewrite bind_lift_throw.
Qed.

Lemma wellCategorized_opened w : wellCategorized w -> wellCategorized (opened w).
Proof. unfold wellCategorized. by rewrite opened_collection. Qed.

Lemma applyUpdates_allowed updates now old :
  allowedCategory (Note.category old) ->
  allowedCategory (Note.category (applyUpdates updates now old)).
Proof.
  intros Hold. unfold applyUpdates. simpl.
  destruct (member updates "category"); auto using categoryOf_allowed.
Qed.

Lemma addNote_categorized payload w n w' :
  wellCategorized w ->
  addNote payload w = (Ok n, w') ->
  allowedCategory (Note.category n) /\ n ∈ collection w' /\ wellCategorized w'.
Proof.
  intros Hw Hrun. destruct (acceptable payload) eqn:Hacc; cycle 1.
  { destruct (addNote_rejected payload w Hacc) as [e He]. rewrite He in Hrun.
    discriminate. }
  rewrite addNote_run in Hrun by done. injection Hrun as <- <-.
  assert (Hcat : allowedCategory (Note.category (created payload w)))
    by apply categoryOf_allowed.
  split; [done|]. unfold wellCategorized. rewrite collection_stored. split.
  - apply elem_of_app. right. apply list_elem_of_singleton. done.
  - apply Forall_app. split; [done|]. by constructor.
Qed.

Lemma updateNoteById_categorized id updates w n w' :
  wellCategorized w ->
  updateNoteById id updates w = (Ok (Some n), w') ->
  allowedCategory (Note.category n) /\ n ∈ collection w' /\ wellCategorized w'.
Proof.
  intros Hw Hrun.
  destruct (list_find (hasId id) (collection w)) as [[index old]|] eqn:Hfind.
  - destruct (acceptable updates) eqn:Hacc; cycle 1.
    { destruct (updateNoteById_rejected id updates w index old Hfind Hacc) as [e He].
      rewrite He in Hrun. discriminate. }
    rewrite (updateNoteById_found id updates w index old Hfind Hacc) in Hrun.
    injection Hrun as <- <-.
    apply list_find_Some in Hfind as (Hlook & _ & _).
    assert (Hcat : allowedCategory
              (Note.category (applyUpdates updates (clock w (ticks w)) old))).
    { apply applyUpdates_allowed.
      eapply (proj1 (Forall_forall _ _) Hw), list_elem_of_lookup_2, Hlook. }
    split; [done|]. unfold wellCategorized. rewrite collection_stored. split.
    + apply list_elem_of_insert. eauto using lookup_lt_Some.
    + by apply Forall_insert.
  - rewrite updateNoteById_missing in Hrun by done. discriminate.
Qed.

Lemma serve_categorized r w : wellCategorized w -> wellCategorized (serve r w).
Proof.
  intros Hw. destruct r as [payload|id|id updates|id|query|]; simpl.
  - destruct (addNote payload w) as [[n|e] w'] eqn:Hrun.
    + by eapply addNote_categorized.
    + destruct (acceptable payload) eqn:Hacc.
      * rewrite addNote_run in Hrun by done. discriminate.
      * destruct (addNote_rejected payload w Hacc) as [e' He]. rewrite He in Hrun.
        injection Hrun as _ <-. by apply wellCategorized_opened.
  - rewrite getNoteById_run. by apply wellCategorized_opened.
  - destruct (list_find (hasId id) (collection w)) as [[index old]|] eqn:Hfind.
    + destruct (acceptable updates) eqn:Hacc.
      * destruct (updateNoteById id updates w) as [[[n|]|e] w'] eqn:Hrun.
        -- by eapply updateNoteById_categorized.
        -- rewrite (updateNoteById_found _ _ _ _ _ Hfind Hacc) in Hrun.
           discriminate.
        -- rewrite (updateNoteById_found _ _ _ _ _ Hfind Hacc) in Hrun.
           discriminate.
      * destruct (updateNoteById_rejected id updates w index old Hfind Hacc)
          as [e ->].
        by apply wellCategorized_opened.
    + rewrite updateNoteById_missing by done. by apply wellCategorized_opened.
  - rewrite deleteNoteById_run. simpl. case_decide; simpl.
    + by apply wellCategorized_opened.
    + unfold wellCategorized. rewrite collection_stored.
      apply Forall_forall. intros n [_ Hn]%list_elem_of_filter.
      by apply (proj1 (Forall_forall _ _) Hw).
  - rewrite searchNotes_run. destruct (toString _); simpl; [|done].
    by apply wellCategorized_opened.
  - rewrite readNotes_run. by apply wellCategorized_opened.
Qed.

Lemma reachable_categorized w : reachable w -> wellCategorized w.
Proof.
  induction 1 as [c t r|w r _ IH].
  - constructor.
  - by apply serve_categorized.
Qed.

(** C4. On every machine the server can reach, each stored note has one of
    the four categories; the note a create stores and the note a successful
    update stores have one of the four categories and leave the store so;
    a create with category [bogus] stores [general]. *)
Theorem category_closed w :
  reachable w ->
  Forall (fun n => allowedCategory (Note.category n)) (collection w) /\
  (forall payload n w',
      addNote payload w = (Ok n, w') ->
      allowedCategory (Note.category n) /\ n ∈ collection w' /\
      Forall (fun n => allowedCategory (Note.category n)) (collection w')) /\
  (forall id updates n w',
      updateNoteById id updates w = (Ok (Some n), w') ->
      allowedCategory (Note.category n) /\ n ∈ collection w' /\
      Forall (fun n => allowedCategory (Note.category n)) (collection w')) /\
  (exists n w',
      addNote (VObj [("category", VStr "bogus")]) w = (Ok n, w') /\
      Note.category n = "general" /\ n ∈ collection w').
Proof.
  intros Hw%reachable_categorized. split_and!.
  - exact Hw.
  - intros payload n w'. by apply addNote_categorized.
  - intros id updates n w'. by apply updateNoteById_categorized.
  - do 2 eexists. split; [by apply addNote_run|]. split; [done|].
    rewrite collection_stored. apply elem_of_app. right.
    by apply list_elem_of_singleton.
Qed.

Lemma category_closed_witness :
  exists n w',
    addNote (VObj [("category", VStr "bogus")])
            (serve (Create (VObj [("category", VStr "WORK")])) freshWorld)
      = (Ok n, w') /\
    Note.category n = "general" /\ n ∈ collection w'.
Proof.
  refine (proj2 (proj2 (proj2 (category_closed
            (serve (Create (VObj [("category", VStr "WORK")])) freshWorld) _)))).
  apply reach_serve, reach_start.
Defined.

(** ** Create, then get *)

Lemma member_payloadOf title text category color :
  let p := payloadOf title text category color in
  member p "title" = from_option VStr VUndefined title /\
  member p "text" = from_option VStr VUndefined text /\
  member p "category" = from_option VStr VUndefined category /\
  member p "color" = from_option VStr VUndefined color.
Proof. destruct title, text, category, color; by split_and!. Qed.

Lemma normalizeCategory_string c :
  normalizeCategory (VStr c) =
    Ok (if decide (toLowerCase c ∈ ["general"; "personal"; "work"; "ideas"])
        then toLowerCase c else "general").
Proof.
  unfold normalizeCategory, truthy, toString.
  destruct (String.eqb_spec c "") as [->|Hc]; cbn [negb].
  - reflexivity.
  - cbv zeta. f_equal.
    destruct (decide (toLowerCase c ∈ ALLOWED_CATEGORIES)) as [Hin|Hout].
    + rewrite decide_True; [done|]. apply allowed_elem_of in Hin.
      rewrite !elem_of_cons. unfold allowedCategory in Hin. tauto.
    + rewrite decide_False; [done|]. intros Hin. apply Hout, allowed_elem_of.
      rewrite !elem_of_cons, elem_of_nil in Hin. unfold allowedCategory. tauto.
Qed.

Lemma categoryOf_string c :
  categoryOf (VStr c) =
    if decide (toLowerCase c ∈ ["general"; "personal"; "work"; "ideas"])
    then toLowerCase c else "general".
Proof. unfold categoryOf. by rewrite normalizeCategory_string. Qed.

Lemma converts_text o : converts (from_option VStr VUndefined o) = true.
Proof. destruct o as [s|]; [|done]. unfold converts. simpl. apply orb_true_r. Qed.

Lemma acceptable_payloadOf title text category color :
  acceptable (payloadOf title text category color) = true.
Proof.
  destruct (member_payloadOf title text category color) as (_ & _ & Hc & Hcol).
  apply acceptable_spec. split; [done|]. rewrite Hc, Hcol.
  split; apply converts_text.
Qed.

Lemma find_appended id (l : list note) n :
  (forall m, m ∈ l -> ¬ hasId id m) -> hasId id n ->
  list_find (hasId id) (l ++ [n]) = Some (length l, n).
Proof.
  intros Hfresh Hn. apply list_find_Some. split_and!.
  - by rewrite lookup_app_r, Nat.sub_diag.
  - done.
  - intros j m Hj Hlt. apply Hfresh.
    rewrite lookup_app_l in Hj by done. by eapply list_elem_of_lookup_2.
Qed.

(** C5, as the code has it. When no stored note already carries the clock
    reading that becomes the id, create followed by get of the new id
    returns the created note: title trimmed (or [Untitled] when blank or
    absent), text trimmed (empty when absent), category lower-cased when it
    is one of the four and [general] otherwise, color as given (white when
    absent or empty); [createdAt] and [updatedAt] are the next two clock
    readings, hence equal when the clock does not move between them. *)
Theorem create_then_get w title text category color :
  (forall m, m ∈ collection w -> Note.id m <> clock w (ticks w)) ->
  exists n w',
    addNote (payloadOf title text category color) w = (Ok n, w') /\
    (getNoteById (Num (Note.id n)) w').1 = Ok (Some n) /\
    Note.title n = match title with
                   | Some s => if decide (trim s = "") then "Untitled" else trim s
                   | None => "Untitled"
                   end /\
    Note.text n = match text with Some s => trim s | None => "" end /\
    Note.category n =
      match category with
      | Some c =>
          if decide (toLowerCase c ∈ ["general"; "personal"; "work"; "ideas"])
          then toLowerCase c else "general"
      | None => "general"
      end /\
    Note.color n = match color with
                   | Some c => if decide (c = "") then "#ffffff" else c
                   | None => "#ffffff"
                   end /\
    Note.createdAt n = clock w (S (ticks w)) /\
    Note.updatedAt n = clock w (S (S (ticks w))) /\
    (clock w (S (ticks w)) = clock w (S (S (ticks w))) ->
     Note.createdAt n = Note.updatedAt n).
Proof.
  intros Hfresh.
  destruct (member_payloadOf title text category color) as (Ht & Hx & Hc & Hcol).
  do 2 eexists. split; [apply addNote_run, acceptable_payloadOf|].
  unfold created, built. rewrite Ht, Hx, Hc, Hcol. cbn [Note.id Note.title
    Note.text Note.category Note.color Note.createdAt Note.updatedAt
    bp_title bp_text bp_category bp_color].
  split_and!.
  - apply getNoteById_Some. exists (length (collection w)).
    rewrite collection_stored. apply find_appended; [|done].
    intros m Hm Hid. apply (Hfresh m Hm). unfold hasId in Hid. simpl in Hid.
    congruence.
  - destruct title as [s|]; simpl; [|done].
    destruct (String.eqb_spec (trim s) ""); by case_decide.
  - by destruct text.
  - destruct category as [c|]; simpl; [|done]. apply categoryOf_string.
  - destruct color as [c|]; simpl; [|done]. unfold colorOf, normalizeColor. simpl.
    destruct (String.eqb_spec c ""); by case_decide.
  - done.
  - done.
  - done.
Qed.

Lemma create_then_get_witness :
  exists n w',
    addNote (payloadOf (Some " Shopping ") (Some "Buy milk") (Some "Work") None)
            sampleWorld = (Ok n, w') /\
    (getNoteById (Num (Note.id n)) w').1 = Ok (Some n) /\
    Note.title n = "Shopping" /\
    Note.text n = "Buy milk" /\
    Note.category n = "work" /\
    Note.color n = "#ffffff" /\
    Note.createdAt n = 1001 /\
    Note.updatedAt n = 1002 /\
    (1001 = 1002 -> Note.createdAt n = Note.updatedAt n).
Proof.
  apply (create_then_get sampleWorld (Some " Shopping ") (Some "Buy milk")
           (Some "Work") None).
  intros m Hm. apply list_elem_of_singleton in Hm as ->. vm_compute. congruence.
Defined.

(** C5 as stated fails twice over. Two creates answered within the same
    millisecond share an id, and get of that id returns the older note, not
    the one just created; and when the clock moves between the two readings
    taken for the timestamps, [createdAt] and [updatedAt] differ. *)
Lemma create_then_get_breaks :
  (let stuck := World None (fun _ => 1000) 0 0 in
   let w1 := (addNote (payloadOf (Some "A") None None None) stuck).2 in
   exists n w2 got,
     addNote (payloadOf (Some "B") None None None) w1 = (Ok n, w2) /\
     (getNoteById (Num (Note.id n)) w2).1 = Ok (Some got) /\
     Note.title got = "A" /\ Note.title got <> "B") /\
  (exists n w',
     addNote (payloadOf (Some "A") (Some "B") None None) freshWorld = (Ok n, w') /\
     Note.createdAt n <> Note.updatedAt n).
Proof.
  split.
  - do 3 eexists. vm_compute. split_and!; try reflexivity. congruence.
  - do 2 eexists. vm_compute. split; [reflexivity|]. congruence.
Qed.

(** ** Search *)

Lemma append_cons c a b : String c a +:+ b = String c (a +:+ b).
Proof. reflexivity. Qed.

Lemma append_empty b : "" +:+ b = b.
Proof. reflexivity. Qed.

Ltac unfold_append := rewrite ?append_cons, ?append_empty in *.

Lemma prefix_spec q s :
  String.prefix q s = true <-> exists post, s = q +:+ post.
Proof.
  revert s. induction q as [|c q IH]; intros [|d s]; simpl.
  - split; [by exists ""|done].
  - split; [by exists (String d s)|done].
  - split; [done|]. intros [post Hpost]. unfold_append. discriminate.
  - destruct (Ascii.ascii_dec c d) as [->|Hne].
    + rewrite IH. split; intros [post Hpost]; exists post; unfold_append;
        congruence.
    + split; [done|]. intros [post Hpost]. unfold_append. congruence.
Qed.

Lemma includes_spec s q :
  includes s q = true <-> exists pre post, s = pre +:+ q +:+ post.
Proof.
  induction s as [|c s IH]; cbn [includes]; rewrite orb_true_iff, prefix_spec.
  - split.
    + intros [[post Hpost]|?]; [|done]. by exists "", post.
    + intros (pre & post & Hs). left.
      destruct pre; unfold_append; [by exists post|discriminate].
  - rewrite IH. split.
    + intros [[post Hpost]|(pre & post & Hs)].
      * by exists "", post.
      * exists (String c pre), post. unfold_append. by rewrite Hs.
    + intros (pre & post & Hs). destruct pre as [|d pre]; unfold_append.
      * left. by exists post.
      * right. exists pre, post. congruence.
Qed.

Lemma toLowerCase_app a b :
  toLowerCase (a +:+ b) = toLowerCase a +:+ toLowerCase b.
Proof.
  induction a as [|c a IH]; unfold_append; simpl; unfold_append; [done|].
  by rewrite IH.
Qed.

Lemma toLowerCase_split s x y :
  toLowerCase s = x +:+ y ->
  exists s1 s2, s = s1 +:+ s2 /\ toLowerCase s1 = x /\ toLowerCase s2 = y.
Proof.
  revert s. induction x as [|c x IH]; intros s Hs; unfold_append.
  - by exists "", s.
  - destruct s as [|d s]; simpl in Hs; [done|]. injection Hs as Hc Hs.
    destruct (IH s Hs) as (s1 & s2 & -> & H1 & H2).
    exists (String d s1), s2. unfold_append. simpl. by rewrite Hc, H1.
Qed.

Lemma includes_lowered s q :
  includes (toLowerCase s) (toLowerCase q) = true <-> ciSubstring q s.
Proof.
  rewrite includes_spec. unfold ciSubstring, ciEqual. split.
  - intros (a & b & Hs).
    apply toLowerCase_split in Hs as (pre & rest & -> & _ & Hrest).
    apply toLowerCase_split in Hrest as (mid & post & -> & Hmid & _).
    by exists pre, mid, post.
  - intros (pre & mid & post & -> & Hmid).
    exists (toLowerCase pre), (toLowerCase post).
    by rewrite !toLowerCase_app, Hmid.
Qed.

Lemma includes_empty s : includes s "" = true.
Proof. by destruct s. Qed.

Lemma filter_as_bool {A} (keep : A -> bool) (l : list A) :
  filter (fun x => keep x) l = List.filter keep l.
Proof.
  induction l as [|x l IH]; [done|]. rewrite filter_cons. simpl.
  destruct (keep x) eqn:Hx.
  - rewrite decide_True by done. by rewrite IH.
  - rewrite decide_False by (by intros []). exact IH.
Qed.

Lemma filter_all {A} (keep : A -> bool) (l : list A) :
  (forall x, keep x = true) -> List.filter keep l = l.
Proof.
  intros Hall. induction l as [|x l IH]; simpl; [done|]. by rewrite Hall, IH.
Qed.

Lemma elem_of_allAscii c : In c allAscii.
Proof.
  rewrite <- (ascii_nat_embedding c). apply in_map, in_seq.
  pose proof (nat_ascii_bounded c). lia.
Qed.

Lemma sameLetter_lowerChar x y :
  sameLetter x y = true <-> lowerChar x = lowerChar y.
Proof.
  assert (Hall : forallb (fun a => forallb (fun b =>
            Bool.eqb (sameLetter a b)
                     (bool_decide (lowerChar a = lowerChar b))) allAscii)
            allAscii = true) by (vm_compute; reflexivity).
  pose proof (proj1 (forallb_forall _ _) Hall x (elem_of_allAscii x)) as Hx.
  pose proof (proj1 (forallb_forall _ _) Hx y (elem_of_allAscii y)) as Hxy.
  apply Bool.eqb_prop in Hxy. rewrite Hxy. apply bool_decide_eq_true.
Qed.

Lemma sameText_lowered a b :
  sameText a b = true <-> toLowerCase a = toLowerCase b.
Proof.
  revert b. induction a as [|x a IH]; intros [|y b]; simpl; try done.
  rewrite andb_true_iff, sameLetter_lowerChar, IH. split.
  - intros [-> ->]. done.
  - intros [= -> ->]. done.
Qed.

Lemma includes_upToCase s q :
  includes (toLowerCase s) (toLowerCase q) = true <-> occursUpToCase q s.
Proof.
  rewrite includes_lowered. unfold ciSubstring, occursUpToCase, ciEqual.
  split; intros (pre & mid & post & Hs & Hmid); exists pre, mid, post;
    (split; [done|]); by apply sameText_lowered.
Qed.

Lemma utf16_includes_nil s : Utf16.includes s [] = true.
Proof. by destruct s. Qed.



(** ** The agent loop *)

Section AgentLoop.

Variable StringToNumber : string -> number.

Local Abbreviation dispatch' := (dispatch StringToNumber).
Local Abbreviation callHandler' := (callHandler StringToNumber).
Local Abbreviation handle' := (handle StringToNumber).
Local Abbreviation rounds' := (rounds StringToNumber).
Local Abbreviation runAgent' := (runAgent StringToNumber).
Local Abbreviation toolRound' := (toolRound StringToNumber).

Lemma parseArguments_caught tc st :
  try_catch (parseArguments tc) (ret (VObj [])) st = (Ok (parsedArguments tc), st).
Proof.
  unfold try_catch, parseArguments, parsedArguments.
  by destruct (fn_arguments tc).
Qed.

Lemma dispatch_unknown tc st :
  agentHandlers (fn_name tc) = None ->
  let errorResult := RErrorObj ("Unknown tool: " +:+ fn_name tc) in
  dispatch' tc st =
    (Ok tt, Agent (env st)
              (messages st ++ [ToolMessage (call_id tc) errorResult])
              (actions st ++ [Action (fn_name tc) (VObj []) errorResult])
              (requests st)).
Proof. intros Hnone. unfold dispatch. by rewrite Hnone. Qed.

Lemma dispatch_known tc st h :
  agentHandlers (fn_name tc) = Some h ->
  dispatch' tc st =
    match callHandler' h (parsedArguments tc) (env st) with
    | (Ok r, w') =>
        let recorded := coalesce r (RErrorObj "No result") in
        (Ok tt, Agent w'
                  (messages st ++ [ToolMessage (call_id tc) recorded])
                  (actions st ++ [Action (fn_name tc) (parsedArguments tc) recorded])
                  (requests st))
    | (Throw e, w') => (Throw e, Agent w' (messages st) (actions st) (requests st))
    end.
Proof.
  intros Hsome. unfold dispatch. rewrite Hsome.
  rewrite bind_run, parseArguments_caught, bind_run. unfold onWorld.
  by destruct (callHandler' h (parsedArguments tc) (env st)) as [[r|e] w'].
Qed.

Lemma forEach_cons {S A} (body : A -> M S unit) x l s :
  forEach body (x :: l) s =
    match body x s with
    | (Ok _, s') => forEach body l s'
    | (Throw e, s') => (Throw e, s')
    end.
Proof. reflexivity. Qed.

Lemma forEach_app {S A} (body : A -> M S unit) l1 l2 s :
  forEach body (l1 ++ l2) s =
    match forEach body l1 s with
    | (Ok _, s') => forEach body l2 s'
    | (Throw e, s') => (Throw e, s')
    end.
Proof.
  revert s. induction l1 as [|x l1 IH]; intros s; [done|].
  rewrite <- app_comm_cons, !forEach_cons.
  destruct (body x s) as [[[]|e] s']; [apply IH|done].
Qed.

(** One tool call adds at most one action and one tool message, exactly
    one of each when it completes, and sends nothing to the model. *)
Lemma dispatch_grows tc st o st' :
  dispatch' tc st = (o, st') ->
  requests st' = requests st /\
  exists newA newM,
    actions st' = actions st ++ newA /\ messages st' = messages st ++ newM /\
    (length newA <= 1)%nat /\ (o = Ok tt -> length newA = 1%nat).
Proof.
  destruct (agentHandlers (fn_name tc)) as [h|] eqn:Hh.
  - rewrite (dispatch_known _ _ _ Hh).
    destruct (callHandler' h (parsedArguments tc) (env st)) as [[r|e] w'];
      intros [= <- <-]; (split; [done|]).
    + do 2 eexists. by split_and!.
    + exists [], []. simpl. rewrite !app_nil_r. split_and!; [done|done|lia|done].
  - rewrite (dispatch_unknown _ _ Hh). intros [= <- <-]. split; [done|].
    do 2 eexists. by split_and!.
Qed.

Lemma forEach_dispatch_grows calls st o st' :
  forEach dispatch' calls st = (o, st') ->
  requests st' = requests st /\
  exists newA newM,
    actions st' = actions st ++ newA /\ messages st' = messages st ++ newM /\
    (length newA <= length calls)%nat /\
    (o = Ok tt -> length newA = length calls).
Proof.
  revert st. induction calls as [|tc calls IH]; intros st.
  - intros [= <- <-]. split; [done|]. exists [], []. by rewrite !app_nil_r.
  - rewrite forEach_cons. destruct (dispatch' tc st) as [[[]|e] st1] eqn:Hone.
    + intros Hrest. apply dispatch_grows in Hone as (Hr1 & a1 & m1 & Ha1 & Hm1 & _ & Hl1).
      apply IH in Hrest as (Hr & a2 & m2 & Ha2 & Hm2 & Hle & Hl2).
      split; [congruence|]. exists (a1 ++ a2), (m1 ++ m2).
      rewrite Ha2, Ha1, Hm2, Hm1, !app_assoc, !length_app, (Hl1 eq_refl).
      split_and!; [done|done|simpl; lia|]. intros Ho. rewrite (Hl2 Ho). done.
    + intros [= <- <-].
      apply dispatch_grows in Hone as (Hr1 & a1 & m1 & Ha1 & Hm1 & Hle & _).
      split; [done|]. exists a1, m1. split_and!; [done|done|simpl; lia|done].
Qed.

(** The lookup finds a registered tool exactly under its declared name. *)
Lemma agentHandlers_registered t : agentHandlers (toolName t) = Some (Own t).
Proof. by destruct t. Qed.

Lemma handle_unknown_id args w id :
  args <> VNull -> args <> VUndefined ->
  toNumber StringToNumber (member args "id") = Ok id ->
  (forall n, n ∈ collection w -> ¬ hasId id n) ->
  handle' update_note args w = (Ok RNull, opened w) /\
  handle' delete_note args w = (Ok (RBool false), opened w).
Proof.
  intros Hnull Hundef Hid Hnone.
  assert (Hfind : list_find (hasId id) (collection w) = None).
  { apply list_find_None, Forall_forall. exact Hnone. }
  unfold handle. rewrite !prop_defined by done. split.
  - rewrite bind_ret. cbv zeta. rewrite Hid, bind_lift_ok, bind_run.
    by rewrite updateNoteById_missing.
  - rewrite bind_ret, Hid, bind_lift_ok, bind_run, deleteNoteById_run. simpl.
    by rewrite decide_True by by apply find_none_filter.
Qed.

(** C1, as the code has it. In a round that completes, every call of a
    registered tool runs its handler on the parsed arguments; a [null] or
    [undefined] result is recorded and sent back as [{error: "No result"}],
    every other result, falsy or not, as it is.  The entry and the tool
    message follow those of the earlier calls and are still there when the
    round ends.  For an id, as [Number] returns it, that no note has,
    [update_note] returns [null] and [delete_note] returns [false]. *)
Theorem registered_result_recorded before tc after st st_end t :
  fn_name tc = toolName t ->
  forEach dispatch' (before ++ tc :: after) st = (Ok tt, st_end) ->
  (exists st1 st2 r,
     let args := parsedArguments tc in
     let recorded :=
       match r with
       | RUndefined | RNull => RErrorObj "No result"
       | _ => r
       end in
     forEach dispatch' before st = (Ok tt, st1) /\
     handle' t args (env st1) = (Ok r, env st2) /\
     actions st2 = actions st1 ++ [Action (fn_name tc) args recorded] /\
     messages st2 = messages st1 ++ [ToolMessage (call_id tc) recorded] /\
     forEach dispatch' after st2 = (Ok tt, st_end) /\
     Action (fn_name tc) args recorded ∈ actions st_end /\
     ToolMessage (call_id tc) recorded ∈ messages st_end) /\
  (forall args w id,
     args <> VNull -> args <> VUndefined ->
     toNumber StringToNumber (member args "id") = Ok id ->
     (forall n, n ∈ collection w -> ¬ hasId id n) ->
     handle' update_note args w = (Ok RNull, opened w) /\
     handle' delete_note args w = (Ok (RBool false), opened w)).
Proof.
  intros Hname Hrun. split; [|apply handle_unknown_id].
  rewrite forEach_app in Hrun.
  destruct (forEach dispatch' before st) as [[[]|e] st1] eqn:Hbefore; [|done].
  rewrite forEach_cons in Hrun.
  assert (Hh : agentHandlers (fn_name tc) = Some (Own t))
    by (rewrite Hname; apply agentHandlers_registered).
  rewrite (dispatch_known _ _ _ Hh) in Hrun. simpl in Hrun.
  destruct (handle' t (parsedArguments tc) (env st1)) as [[r|e] w'] eqn:Hcall;
    [|done].
  simpl in Hrun.
  destruct (forEach_dispatch_grows _ _ _ _ Hrun) as (_ & a & m & Ha & Hm & _).
  match type of Hrun with
  | forEach _ _ ?s = _ => exists st1, s, r
  end.
  split_and!; [done|exact Hcall|..|exact Hrun| |].
  - by destruct r.
  - by destruct r.
  - rewrite Ha. simpl. apply elem_of_app. left. apply elem_of_app. right.
    apply list_elem_of_singleton. by destruct r.
  - rewrite Hm. simpl. apply elem_of_app. left. apply elem_of_app. right.
    apply list_elem_of_singleton. by destruct r.
Qed.

(** A name that the lookup does not resolve: the call is answered with the
    error object, the world is not touched and the round goes on with the
    next call. *)
Lemma unknown_tool_contained before tc after st st1 :
  agentHandlers (fn_name tc) = None ->
  forEach dispatch' before st = (Ok tt, st1) ->
  let errorResult := RErrorObj ("Unknown tool: " +:+ fn_name tc) in
  forEach dispatch' (before ++ tc :: after) st =
    forEach dispatch' after
      (Agent (env st1)
         (messages st1 ++ [ToolMessage (call_id tc) errorResult])
         (actions st1 ++ [Action (fn_name tc) (VObj []) errorResult])
         (requests st1)).
Proof.
  intros Hnone Hbefore. simpl.
  by rewrite forEach_app, Hbefore, forEach_cons, dispatch_unknown.
Qed.

Lemma toolRound_grows openai st st' :
  toolRound' openai st st' ->
  requests st' = requests st ++ [messages st] /\
  exists new, actions st' = actions st ++ new.
Proof.
  intros (c & calls & _ & _ & _ & Hrun). rewrite bind_run in Hrun.
  simpl in Hrun.
  apply forEach_dispatch_grows in Hrun as (Hreq & a & m & Ha & _).
  split; [done|]. by exists a.
Qed.

Lemma rounds_step openai n st st' :
  toolRound' openai st st' ->
  rounds' openai (S n) st = rounds' openai n st'.
Proof.
  intros (c & calls & Hc & Hcalls & Hne & Hrun).
  cbn [rounds]. rewrite bind_run.
  destruct (complete openai st) as [o st0] eqn:Hcomplete. simpl in Hc, Hrun.
  subst o. rewrite Hcalls. destruct calls as [|tc calls]; [done|].
  rewrite bind_run in Hrun. rewrite bind_run.
  destruct (pushMessage (AssistantChoice c) st0) as [[[]|e] st0'];
    [|discriminate].
  rewrite bind_run. by rewrite Hrun.
Qed.

Lemma rounds_requests openai n st :
  (length (requests (rounds' openai n st).2) <= length (requests st) + n)%nat.
Proof.
  revert st. induction n as [|n IH]; intros st; [simpl; lia|].
  cbn [rounds]. rewrite bind_run. unfold complete.
  destruct (openai (messages st)) as [c|e]; [|simpl; rewrite length_app; simpl; lia].
  set (st0 := Agent _ _ _ (requests st ++ [messages st])).
  assert (Hlen : length (requests st0) = S (length (requests st)))
    by (simpl; rewrite length_app; simpl; lia).
  destruct (tool_calls c) as [[|tc calls]|];
    [simpl; rewrite length_app; simpl; lia|
    |simpl; rewrite length_app; simpl; lia].
  rewrite bind_run. cbn [pushMessage]. rewrite bind_run.
  set (st0' := Agent _ _ _ _).
  destruct (forEach dispatch' (tc :: calls) st0') as [[[]|e] st1] eqn:Hrun;
    apply forEach_dispatch_grows in Hrun as (Hreq & _); simpl in Hreq.
  - specialize (IH st1). rewrite Hreq, length_app in IH. simpl in IH. lia.
  - simpl. rewrite Hreq, length_app. simpl. lia.
Qed.

(** C2, as the code has it. Whatever the model answers, [runAgent] sends
    it at most three requests.  When three rounds in a row come back with
    tool calls and the dispatch of each completes, [runAgent] returns the
    fixed fallback reply with the action trail of the third round's end,
    which extends the trail of the second, which extends the trail of the
    first. *)
Theorem bounded_rounds (client : option model) openai history message w :
  let start :=
    Agent w ([SystemMessage SYSTEM_PROMPT] ++ history ++ [UserMessage message])
          [] [] in
  (length (requests (runAgent' client history message w).2) <= 3)%nat /\
  forall st1 st2 st3,
    toolRound' openai start st1 ->
    toolRound' openai st1 st2 ->
    toolRound' openai st2 st3 ->
    runAgent' (Some openai) history message w =
      (Ok (AgentResult FALLBACK_REPLY (actions st3)), st3) /\
    length (requests st3) = 3%nat /\
    exists a1 a2 a3,
      actions st1 = a1 /\ actions st2 = a1 ++ a2 /\ actions st3 = a1 ++ a2 ++ a3.
Proof.
  intros start. split.
  - destruct client as [m|]; [|simpl; lia].
    apply (rounds_requests m 3 start).
  - intros st1 st2 st3 H1 H2 H3. unfold runAgent. fold start.
    rewrite (rounds_step _ _ _ _ H1), (rounds_step _ _ _ _ H2),
      (rounds_step _ _ _ _ H3).
    split; [done|].
    apply toolRound_grows in H1 as (Hr1 & a1 & Ha1).
    apply toolRound_grows in H2 as (Hr2 & a2 & Ha2).
    apply toolRound_grows in H3 as (Hr3 & a3 & Ha3).
    split.
    + rewrite Hr3, Hr2, Hr1, !length_app. reflexivity.
    + exists a1, a2, a3. simpl in Ha1.
      rewrite Ha3, Ha2, Ha1, <- !app_assoc. done.
Qed.

End AgentLoop.

(** ** The loop on concrete rounds *)

Lemma registered_result_recorded_witness :
  exists st1 st2 r,
    forEach (dispatch sampleStringToNumber) [callUnknown] sampleAgent = (Ok tt, st1) /\
    handle sampleStringToNumber update_note (parsedArguments callUpdate) (env st1)
      = (Ok r, env st2) /\
    r = RNull /\
    actions st2 =
      actions st1 ++
      [Action "update_note" (parsedArguments callUpdate) (RErrorObj "No result")] /\
    messages st2 =
      messages st1 ++ [ToolMessage "call_1" (RErrorObj "No result")].
Proof.
  destruct (registered_result_recorded sampleStringToNumber
              [callUnknown] callUpdate [callDelete] sampleAgent
              (forEach (dispatch sampleStringToNumber)
                 ([callUnknown] ++ callUpdate :: [callDelete]) sampleAgent).2
              update_note)
    as [(st1 & st2 & r & H1 & H2 & H3 & H4 & _) _].
  - reflexivity.
  - vm_compute. reflexivity.
  - exists st1, st2, r.
    assert (Hst1 : st1 = (forEach (dispatch sampleStringToNumber) [callUnknown]
                            sampleAgent).2) by (by rewrite H1).
    assert (Hr : r = RNull).
    { rewrite Hst1 in H2. vm_compute in H2. congruence. }
    subst r. by split_and!.
Defined.

(** C1 as stated fails: [delete_note] for an id no note has returns
    [false], a falsy result, and the loop records [false] and sends [false]
    back, not [{error: "No result"}]. *)
Lemma falsy_result_kept :
  (handle sampleStringToNumber delete_note (parsedArguments callDelete) sampleWorld).1
    = Ok (RBool false) /\
  exists st,
    dispatch sampleStringToNumber callDelete sampleAgent = (Ok tt, st) /\
    actions st = [Action "delete_note" (VObj [("id", VNum 123456)]) (RBool false)] /\
    messages st = [ToolMessage "call_2" (RBool false)] /\
    RBool false <> RErrorObj "No result".
Proof.
  split; [by vm_compute|]. eexists. split; [by vm_compute|]. by split_and!.
Qed.

Lemma persistent_toolRound st :
  (forEach (dispatch sampleStringToNumber) [callUnknown; callDelete]
     (Agent (env st) (messages st ++ [AssistantChoice (Choice None (Some [callUnknown; callDelete]))])
            (actions st) (requests st ++ [messages st]))).1 = Ok tt ->
  toolRound sampleStringToNumber persistentModel st (roundEnd st).
Proof.
  intros Hok. exists (Choice None (Some [callUnknown; callDelete])),
    [callUnknown; callDelete].
  split_and!; [done|done|done|]. unfold roundEnd. rewrite bind_run.
  cbn [pushMessage complete snd].
  destruct (forEach _ _ _) as [[[]|e] st']; [done|discriminate].
Qed.

Lemma bounded_rounds_witness :
  exists res st,
    runAgent sampleStringToNumber (Some persistentModel) [] "tidy up" sampleWorld
      = (Ok res, st) /\
    reply res = FALLBACK_REPLY /\
    trail res = actions st /\
    length (requests st) = 3%nat.
Proof.
  destruct (bounded_rounds sampleStringToNumber (Some persistentModel)
              persistentModel [] "tidy up" sampleWorld) as [_ Hrounds].
  destruct (Hrounds (roundEnd sampleStart) (roundEnd (roundEnd sampleStart))
              (roundEnd (roundEnd (roundEnd sampleStart))))
    as (Hrun & Hreq & _).
  - apply persistent_toolRound. vm_compute. reflexivity.
  - apply persistent_toolRound. vm_compute. reflexivity.
  - apply persistent_toolRound. vm_compute. reflexivity.
  - do 2 eexists. split; [exact Hrun|]. by split_and!.
Defined.

(** C2 as stated fails: all three requests are answered with tool calls,
    but the handler of the third round's call throws on its [null]
    arguments, so [runAgent] ends with that exception and returns neither
    the fallback reply nor the trail. *)
Lemma third_round_throws :
  let run := runAgent sampleStringToNumber (Some moodyModel) [] "tidy up"
               sampleWorld in
  length (requests run.2) = 3%nat /\
  Forall (fun sent => exists c calls,
            moodyModel sent = Ok c /\ tool_calls c = Some calls /\ calls <> [])
         (requests run.2) /\
  (exists msg, run.1 = Throw (TypeError msg)) /\
  actions run.2 =
    [Action "summarize_notes" (VObj []) (RErrorObj "Unknown tool: summarize_notes");
     Action "summarize_notes" (VObj []) (RErrorObj "Unknown tool: summarize_notes")].
Proof.
  split_and!.
  - by vm_compute.
  - vm_compute requests. repeat constructor; do 2 eexists; by vm_compute.
  - eexists. by vm_compute.
  - by vm_compute.
Qed.

(** C3 fails on the code. [agentHandlers] is an object literal, so a name
    such as [valueOf] or [constructor], which no tool declares, still
    resolves through [Object.prototype].  Calling what [valueOf] resolves to
    throws: [runAgent] ends with a TypeError, nothing is recorded or sent
    back, and the next call of the round is never dispatched.  Calling what
    [constructor] resolves to returns the arguments, which are recorded in
    place of the error object. *)
Theorem inherited_name_escapes :
  let calls := [ToolCall "call_1" "valueOf" (Some (VObj [])); callDelete] in
  let openai : model := fun _ => Ok (Choice None (Some calls)) in
  ("valueOf" ∉ map toolName agentTools) /\
  ("constructor" ∉ map toolName agentTools) /\
  (exists msg st,
     runAgent sampleStringToNumber (Some openai) [] "tidy up" sampleWorld
       = (Throw (TypeError msg), st) /\
     actions st = [] /\
     messages st = [SystemMessage SYSTEM_PROMPT; UserMessage "tidy up";
                    AssistantChoice (Choice None (Some calls))]) /\
  (exists st,
     dispatch sampleStringToNumber
       (ToolCall "call_1" "constructor" (Some (VObj []))) sampleAgent = (Ok tt, st) /\
     actions st = [Action "constructor" (VObj []) (RValue (VObj []))] /\
     RValue (VObj []) <> RErrorObj "Unknown tool: constructor").
Proof.
  split_and!.
  - simpl. intros H.
    repeat (apply elem_of_cons in H as [H|H]; [discriminate|]).
    by apply elem_of_nil in H.
  - simpl. intros H.
    repeat (apply elem_of_cons in H as [H|H]; [discriminate|]).
    by apply elem_of_nil in H.
  - do 2 eexists. split; [by vm_compute|]. by split.
  - eexists. split; [by vm_compute|]. by split.
Qed.


(** * Further properties of the note service *)

(** ** Previews *)

Lemma length_append a b :
  String.length (a +:+ b) = (String.length a + String.length b)%nat.
Proof. induction a as [|c a IH]; unfold_append; simpl; [done|by rewrite IH]. Qed.

Lemma slice0_length limit s :
  (limit <= String.length s)%nat -> String.length (slice0 limit s) = limit.
Proof.
  unfold slice0. revert s. induction limit as [|k IH]; intros [|c s]; simpl;
    try done; try lia.
  intros Hle. rewrite IH; [done|lia].
Qed.

Lemma slice0_prefix limit s : String.prefix (slice0 limit s) s = true.
Proof.
  unfold slice0. revert s. induction limit as [|k IH]; intros [|c s]; simpl;
    try done.
  destruct (Ascii.ascii_dec c c); [apply IH|done].
Qed.

(** X1. A preview never exceeds the limit by more than the three dots: a
    text within the limit is returned as it is, a longer one is cut to its
    first [limit] characters followed by [...]. *)
Theorem truncateText_bounded limit text :
  (String.length (truncateText limit text) <= limit + 3)%nat /\
  ((String.length text <= limit)%nat -> truncateText limit text = text) /\
  ((limit < String.length text)%nat ->
   truncateText limit text = slice0 limit text +:+ "..." /\
   String.length (slice0 limit text) = limit /\
   String.prefix (slice0 limit text) text = true).
Proof.
  unfold truncateText.
  destruct (String.eqb_spec text "") as [->|Hne]; [simpl; split_and!; [lia|done|lia]|].
  destruct (Nat.leb_spec (String.length text) limit) as [Hle|Hlt].
  - split_and!; [lia|done|lia].
  - split_and!; [|lia|].
    + rewrite length_append, slice0_length by lia. simpl. lia.
    + intros _. split_and!; [done|apply slice0_length; lia|apply slice0_prefix].
Qed.

Lemma truncateText_bounded_witness :
  truncateText 5 "Milk and Eggs" = "Milk ..." /\
  String.length (slice0 5 "Milk and Eggs") = 5%nat /\
  String.prefix (slice0 5 "Milk and Eggs") "Milk and Eggs" = true.
Proof.
  apply (proj2 (proj2 (truncateText_bounded 5 "Milk and Eggs"))). simpl. lia.
Defined.

(** ** What a request does to the machine *)

Lemma serve_cases r w :
  serve r w = w \/ serve r w = opened w \/
  (exists payload,
      serve r w = stored (collection w ++ [created payload w])
                         (ticked (ticked (ticked (opened w))))) \/
  (exists id updates index old,
      list_find (hasId id) (collection w) = Some (index, old) /\
      serve r w = stored (<[index := applyUpdates updates (clock w (ticks w)) old]>
                            (collection w))
                         (ticked (opened w))) \/
  (exists id,
      serve r w = stored (filter (fun n => ¬ hasId id n) (collection w)) (opened w)).
Proof.
  destruct r as [payload|id|id updates|id|query|]; simpl.
  - destruct (acceptable payload) eqn:Hacc.
    + rewrite addNote_run by done. right; right; left. by exists payload.
    + destruct (addNote_rejected payload w Hacc) as [e ->]. right. by left.
  - rewrite getNoteById_run. right. by left.
  - destruct (list_find (hasId id) (collection w)) as [[index old]|] eqn:Hfind.
    + destruct (acceptable updates) eqn:Hacc.
      * rewrite (updateNoteById_found _ _ _ _ _ Hfind Hacc).
        right; right; right; left. by exists id, updates, index, old.
      * destruct (updateNoteById_rejected id updates w index old Hfind Hacc)
          as [e ->].
        right. by left.
    + rewrite updateNoteById_missing by done. right. by left.
  - rewrite deleteNoteById_run. simpl. case_decide; simpl; [right; by left|].
    right; right; right; right. by exists id.
  - rewrite searchNotes_run. destruct (toString _); simpl; [right|]; by left.
  - rewrite readNotes_run. right. by left.
Qed.

Lemma serve_preserves (P : note -> Prop) :
  (forall payload w, P (created payload w)) ->
  (forall updates now old, P old -> P (applyUpdates updates now old)) ->
  forall r w, Forall P (collection w) -> Forall P (collection (serve r w)).
Proof.
  intros Hcreated Hupdated r w Hw.
  destruct (serve_cases r w)
    as [->|[->|[(payload & ->)|[(id & updates & index & old & Hfind & ->)|(id & ->)]]]].
  - done.
  - by rewrite opened_collection.
  - rewrite collection_stored. apply Forall_app. split; [done|].
    constructor; [apply Hcreated|constructor].
  - rewrite collection_stored. apply Forall_insert; [done|]. apply Hupdated.
    apply list_find_Some in Hfind as (Hlook & _ & _).
    eapply (proj1 (Forall_forall _ _) Hw), list_elem_of_lookup_2, Hlook.
  - rewrite collection_stored. apply Forall_forall.
    intros n [_ Hn]%list_elem_of_filter. by apply (proj1 (Forall_forall _ _) Hw).
Qed.

Lemma reachable_preserves (P : note -> Prop) :
  (forall payload w, P (created payload w)) ->
  (forall updates now old, P old -> P (applyUpdates updates now old)) ->
  forall w, reachable w -> Forall P (collection w).
Proof.
  intros Hcreated Hupdated w. induction 1 as [c t r|w r _ IH].
  - constructor.
  - by apply serve_preserves.
Qed.

(** ** Trimmed titles and texts *)

Lemma trimStart_head s : headKept (trimStart s).
Proof.
  induction s as [|c s IH]; simpl; [done|].
  by destruct (isWhiteSpace c) eqn:Hc.
Qed.

Lemma trimStart_kept s : headKept s -> trimStart s = s.
Proof. destruct s as [|c s]; simpl; [done|]. by intros ->. Qed.

Lemma trimEnd_idem s : trimEnd (trimEnd s) = trimEnd s.
Proof.
  induction s as [|c s IH]; simpl; [done|].
  destruct (trimEnd s) as [|d kept] eqn:Hs.
  - destruct (isWhiteSpace c) eqn:Hc; simpl; [done|by rewrite Hc].
  - change (trimEnd (String c (String d kept))) with
      (match trimEnd (String d kept) with
       | EmptyString => if isWhiteSpace c then EmptyString else String c EmptyString
       | kept' => String c kept'
       end).
    by rewrite IH.
Qed.

Lemma trimEnd_head s : headKept s -> headKept (trimEnd s).
Proof.
  destruct s as [|c s]; simpl; [done|]. intros Hc.
  destruct (trimEnd s); simpl; by rewrite ?Hc.
Qed.

Lemma trim_idem s : trim (trim s) = trim s.
Proof.
  unfold trim.
  rewrite (trimStart_kept (trimEnd (trimStart s)))
    by apply trimEnd_head, trimStart_head.
  apply trimEnd_idem.
Qed.

Lemma created_wellShaped payload w : wellShaped (created payload w).
Proof.
  unfold wellShaped, created, built. simpl. split_and!.
  - destruct (member payload "title"); try done.
    by destruct (String.eqb_spec (trim s) "").
  - destruct (member payload "title"); try done.
    destruct (String.eqb_spec (trim s) ""); [done|apply trim_idem].
  - destruct (member payload "text"); try done. apply trim_idem.
Qed.

Lemma applyUpdates_wellShaped updates now old :
  wellShaped old -> wellShaped (applyUpdates updates now old).
Proof.
  intros (Hne & Htitle & Htext). unfold wellShaped, applyUpdates. simpl.
  split_and!.
  - destruct (member updates "title"); try done.
    by destruct (String.eqb_spec (trim s) "").
  - destruct (member updates "title"); try done.
    destruct (String.eqb_spec (trim s) ""); [done|apply trim_idem].
  - destruct (member updates "text"); try done. apply trim_idem.
Qed.

(** X2. On every machine the server can reach, each stored note has a
    title that is not empty, and neither its title nor its text starts or
    ends with white space. *)
Theorem stored_notes_wellShaped w :
  reachable w -> Forall wellShaped (collection w).
Proof.
  apply reachable_preserves.
  - apply created_wellShaped.
  - apply applyUpdates_wellShaped.
Qed.

Lemma stored_notes_wellShaped_witness :
  Forall wellShaped
    (collection (serve (Update (Num 1000) (VObj [("title", VStr "   ")]))
                   (serve (Create (VObj [("title", VStr "  Plans ")])) freshWorld))).
Proof.
  apply stored_notes_wellShaped. apply reach_serve, reach_serve, reach_start.
Defined.

(** ** Ids *)

Lemma stored_fields l w :
  clock (stored l w) = clock w /\ ticks (stored l w) = ticks w.
Proof. done. Qed.

Lemma serve_clock r w :
  clock (serve r w) = clock w /\ (ticks w <= ticks (serve r w))%nat.
Proof.
  destruct (opened_fields w) as (Hc & Ht & _).
  destruct (serve_cases r w)
    as [->|[->|[(payload & ->)|[(id & updates & index & old & Hfind & ->)|(id & ->)]]]];
    simpl; rewrite ?Hc, ?Ht; split; (done || lia).
Qed.

Lemma ids_filter (P : note -> Prop) `{!forall n, Decision (P n)} (l : list note) :
  NoDup (Note.id <$> l) -> NoDup (Note.id <$> filter P l).
Proof.
  induction l as [|n l IH]; [done|]. rewrite fmap_cons, NoDup_cons.
  intros [Hn Hl]. rewrite filter_cons. destruct (decide (P n)); [|by apply IH].
  rewrite fmap_cons. apply NoDup_cons. split; [|by apply IH].
  intros (m & Hid & Hm)%list_elem_of_fmap. apply Hn, list_elem_of_fmap.
  exists m. split; [done|]. by apply list_elem_of_filter in Hm as [_ ?].
Qed.

Lemma serve_stamped r w :
  risingClock (clock w) ->
  stamped w /\ NoDup (Note.id <$> collection w) ->
  stamped (serve r w) /\ NoDup (Note.id <$> collection (serve r w)).
Proof.
  intros Hrise [Hst Hnd].
  destruct (opened_fields w) as (Hc & Ht & _).
  destruct (serve_cases r w)
    as [->|[->|[(payload & ->)|[(id & updates & index & old & Hfind & ->)|(id & ->)]]]].
  - done.
  - split.
    + intros n Hn. rewrite opened_collection in Hn. rewrite Hc, Ht. by apply Hst.
    + by rewrite opened_collection.
  - split.
    + intros n Hn. rewrite collection_stored in Hn. simpl. rewrite Hc, Ht.
      apply elem_of_app in Hn as [Hn|Hn%list_elem_of_singleton].
      * destruct (Hst n Hn) as (k & Hk & Hid). exists k. split; [lia|done].
      * subst n. exists (ticks w). split; [lia|done].
    + rewrite collection_stored, fmap_app. apply NoDup_app. split_and!.
      * done.
      * intros i (n & -> & Hn)%list_elem_of_fmap Hnew.
        apply list_elem_of_singleton in Hnew. simpl in Hnew.
        destruct (Hst n Hn) as (k & Hk & Hid).
        specialize (Hrise k (ticks w) Hk). lia.
      * apply NoDup_singleton.
  - apply list_find_Some in Hfind as (Hlook & Hid & _).
    assert (Hsame : Note.id <$> <[index := applyUpdates updates (clock w (ticks w)) old]>
                                 (collection w) = Note.id <$> collection w).
    { rewrite list_fmap_insert. apply list_insert_id.
      by rewrite list_lookup_fmap, Hlook. }
    split.
    + intros n Hn. rewrite collection_stored in Hn. simpl. rewrite Hc, Ht.
      apply list_elem_of_lookup in Hn as [j Hj].
      destruct (decide (j = index)) as [->|Hne].
      * rewrite list_lookup_insert_eq in Hj by eauto using lookup_lt_Some.
        injection Hj as <-.
        destruct (Hst old) as (k & Hk & Hold);
          [by eapply list_elem_of_lookup_2|].
        exists k. split; [lia|done].
      * rewrite list_lookup_insert_ne in Hj by done.
        destruct (Hst n) as (k & Hk & Hn); [by eapply list_elem_of_lookup_2|].
        exists k. split; [lia|done].
    + by rewrite collection_stored, Hsame.
  - split.
    + intros n Hn. rewrite collection_stored in Hn. simpl. rewrite Hc, Ht.
      apply list_elem_of_filter in Hn as [_ Hn]. by apply Hst.
    + rewrite collection_stored. by apply ids_filter.
Qed.

Lemma reachable_stamped w :
  reachable w -> risingClock (clock w) ->
  stamped w /\ NoDup (Note.id <$> collection w).
Proof.
  induction 1 as [c t r|w r _ IH]; intros Hrise.
  - split; [by intros n Hn%elem_of_nil|constructor].
  - destruct (serve_clock r w) as [Hclock _]. rewrite Hclock in Hrise.
    by apply serve_stamped, IH.
Qed.

(** X3. When the clock moves on between any two readings, the notes of
    every machine the server can reach have pairwise different ids, and get
    of a stored note's id returns that very note. *)
Theorem ids_unique w :
  reachable w -> risingClock (clock w) ->
  NoDup (Note.id <$> collection w) /\
  forall n, n ∈ collection w -> (getNoteById (Num (Note.id n)) w).1 = Ok (Some n).
Proof.
  intros Hreach Hrise. destruct (reachable_stamped w Hreach Hrise) as [_ Hnd].
  split; [done|]. intros n [i Hi]%list_elem_of_lookup.
  apply getNoteById_Some. exists i. apply list_find_Some. split_and!; [done|done|].
  intros j m Hj Hlt Hid. unfold hasId in Hid.
  assert (i = j); [|lia].
  eapply (NoDup_lookup _ _ _ (Note.id n) Hnd);
    rewrite list_lookup_fmap; [by rewrite Hi|rewrite Hj; simpl; congruence].
Qed.

Lemma sampleClock_rising : risingClock sampleClock.
Proof. intros i j Hlt. unfold sampleClock. lia. Qed.

Lemma ids_unique_witness :
  let w := serve (Create (VObj [("title", VStr "B")]))
             (serve (Create (VObj [("title", VStr "A")])) freshWorld) in
  NoDup (Note.id <$> collection w) /\
  forall n, n ∈ collection w -> (getNoteById (Num (Note.id n)) w).1 = Ok (Some n).
Proof.
  apply ids_unique.
  - apply reach_serve, reach_serve, reach_start.
  - destruct (serve_clock (Create (VObj [("title", VStr "B")]))
                (serve (Create (VObj [("title", VStr "A")])) freshWorld)) as [-> _].
    destruct (serve_clock (Create (VObj [("title", VStr "A")])) freshWorld) as [-> _].
    apply sampleClock_rising.
Defined.

(** ** Delete and update on the rest of the collection *)

(** X4. Delete answers [true] exactly when some stored note has the id;
    it then removes every note with that id in one rewrite of the file and
    keeps the others in their order, and otherwise rewrites nothing. *)
Theorem delete_removes id w :
  exists deleted w',
    deleteNoteById id w = (Ok deleted, w') /\
    (deleted = true <-> exists n, n ∈ collection w /\ hasId id n) /\
    collection w' = filter (fun n => ¬ hasId id n) (collection w) /\
    (forall n, n ∈ collection w' <-> n ∈ collection w /\ ¬ hasId id n) /\
    rewrites w' = (rewrites w + if deleted then 1 else 0)%nat.
Proof.
  rewrite deleteNoteById_run. simpl.
  destruct (opened_fields w) as (_ & _ & Hr).
  destruct (decide _) as [Heq|Hne]; do 2 eexists; (split; [reflexivity|]).
  - rewrite opened_collection. split_and!.
    + split; [done|]. intros (n & Hn & Hid). rewrite <- Heq in Hn.
      by apply list_elem_of_filter in Hn as [? _].
    + done.
    + intros n. rewrite <- Heq at 1. rewrite list_elem_of_filter. tauto.
    + rewrite Hr. lia.
  - rewrite collection_stored. split_and!.
    + split; [|done]. intros _.
      destruct (list_find (hasId id) (collection w)) as [[i n]|] eqn:Hfind.
      * apply list_find_Some in Hfind as (Hlook & Hid & _).
        exists n. split; [by eapply list_elem_of_lookup_2|done].
      * destruct Hne. by apply find_none_filter.
    + done.
    + intros n. rewrite list_elem_of_filter. tauto.
    + simpl. rewrite Hr. lia.
Qed.

(** X5. A successful update replaces the first stored note that has the id
    and nothing else: the collection keeps its length, every other position
    keeps its note, and the file is rewritten once. *)
Theorem update_touches_one id updates w next w' :
  updateNoteById id updates w = (Ok (Some next), w') ->
  exists index old,
    list_find (hasId id) (collection w) = Some (index, old) /\
    collection w' = <[index := next]> (collection w) /\
    collection w' !! index = Some next /\
    length (collection w') = length (collection w) /\
    (forall j, j <> index -> collection w' !! j = collection w !! j) /\
    rewrites w' = S (rewrites w).
Proof.
  intros Hrun.
  destruct (list_find (hasId id) (collection w)) as [[index old]|] eqn:Hfind.
  - destruct (acceptable updates) eqn:Hacc; cycle 1.
    { destruct (updateNoteById_rejected id updates w index old Hfind Hacc) as [e He].
      rewrite He in Hrun. discriminate. }
    rewrite (updateNoteById_found id updates w index old Hfind Hacc) in Hrun.
    injection Hrun as <- <-. exists index, old.
    apply list_find_Some in Hfind as (Hlook & _ & _).
    rewrite collection_stored. destruct (opened_fields w) as (_ & _ & Hr).
    split_and!; [done|done|..].
    + apply list_lookup_insert_eq. eauto using lookup_lt_Some.
    + apply length_insert.
    + intros j Hj. by apply list_lookup_insert_ne.
    + simpl. by rewrite Hr.
  - rewrite updateNoteById_missing in Hrun by done. discriminate.
Qed.

Lemma update_touches_one_witness :
  exists index old,
    list_find (hasId (Num 41)) (collection sampleWorld) = Some (index, old) /\
    index = 0%nat /\ old = sampleNote.
Proof.
  edestruct (update_touches_one (Num 41) (VObj [("text", VStr " Bread ")])
               sampleWorld) as (index & old & Hfind & _).
  - vm_compute. reflexivity.
  - exists index, old. split; [done|]. vm_compute in Hfind.
    by injection Hfind as <- <-.
Defined.

(** X6. In an update that goes through (the payload is not [null], and
    its category and color, when present, convert to strings), a category
    or a color that is present but [null] (or a color that is the empty
    string) puts the default back, and a title or a text that is present
    but not a string is ignored. *)
Theorem update_null_fields id updates w old :
  (getNoteById id w).1 = Ok (Some old) ->
  acceptable updates = true ->
  exists next w',
    updateNoteById id updates w = (Ok (Some next), w') /\
    (member updates "category" = VNull -> Note.category next = "general") /\
    (member updates "color" = VNull \/ member updates "color" = VStr "" ->
     Note.color next = "#ffffff") /\
    ((forall s, member updates "title" <> VStr s) ->
     Note.title next = Note.title old) /\
    ((forall s, member updates "text" <> VStr s) ->
     Note.text next = Note.text old).
Proof.
  intros [index Hfind]%getNoteById_Some Hacc.
  do 2 eexists. split; [by apply updateNoteById_found|].
  unfold applyUpdates. simpl. split_and!.
  - by intros ->.
  - by intros [-> | ->].
  - intros Hns. destruct (member updates "title"); try done. by destruct (Hns s).
  - intros Hns. destruct (member updates "text"); try done. by destruct (Hns s).
Qed.

Lemma update_null_fields_witness :
  exists next w',
    updateNoteById (Num 41)
      (VObj [("category", VNull); ("color", VNull); ("title", VNum 7)]) sampleWorld
      = (Ok (Some next), w') /\
    Note.category next = "general" /\ Note.color next = "#ffffff" /\
    Note.title next = "Groceries" /\ Note.text next = "Milk and Eggs".
Proof.
  destruct (update_null_fields (Num 41)
              (VObj [("category", VNull); ("color", VNull); ("title", VNum 7)])
              sampleWorld sampleNote) as (next & w' & Hrun & Hcat & Hcol & Ht & Hx).
  - vm_compute. reflexivity.
  - vm_compute. reflexivity.
  - exists next, w'. split; [done|]. split_and!.
    + by apply Hcat.
    + apply Hcol. by left.
    + apply Ht. intros s. vm_compute. discriminate.
    + apply Hx. intros s. vm_compute. discriminate.
Defined.

(** ** Normalization *)

(** X7. Normalizing a category is idempotent, keeps each of the four
    categories as it is, and does not depend on the letter case of a string
    it is given. *)
Theorem normalizeCategory_stable :
  (forall v c, normalizeCategory v = Ok c -> normalizeCategory (VStr c) = Ok c) /\
  (forall c, allowedCategory c -> normalizeCategory (VStr c) = Ok c) /\
  (forall a b, ciEqual a b ->
               normalizeCategory (VStr a) = normalizeCategory (VStr b)).
Proof.
  assert (Hfix : forall c, allowedCategory c -> normalizeCategory (VStr c) = Ok c).
  { intros c [->|[->|[->| ->]]]; by vm_compute. }
  split_and!.
  - intros v c Hv. by eapply Hfix, normalizeCategory_allowed.
  - exact Hfix.
  - intros a b Hab. rewrite !normalizeCategory_string. unfold ciEqual in Hab.
    by rewrite Hab.
Qed.

(** * Further properties of the agent loop *)

Section AgentInvariants.

Variable StringToNumber : string -> number.

Local Abbreviation dispatch' := (dispatch StringToNumber).
Local Abbreviation handle' := (handle StringToNumber).
Local Abbreviation callHandler' := (callHandler StringToNumber).
Local Abbreviation rounds' := (rounds StringToNumber).
Local Abbreviation runAgent' := (runAgent StringToNumber).

Lemma forEach_dispatch_invariant (I : agent -> Prop) :
  (forall tc st, I st -> I (dispatch' tc st).2) ->
  forall calls st, I st -> I (forEach dispatch' calls st).2.
Proof.
  intros Hstep calls. induction calls as [|tc calls IH]; intros st Hst; [done|].
  rewrite forEach_cons. specialize (Hstep tc st Hst).
  destruct (dispatch' tc st) as [[[]|e] st1]; [by apply IH|done].
Qed.

Lemma rounds_invariant (I : agent -> Prop) openai :
  (forall st, I st -> I (complete openai st).2) ->
  (forall c st, I st -> I (pushMessage (AssistantChoice c) st).2) ->
  (forall tc st, I st -> I (dispatch' tc st).2) ->
  forall n st, I st -> I (rounds' openai n st).2.
Proof.
  intros Hcomplete Hpush Hstep n.
  induction n as [|n IH]; intros st Hst; [done|].
  cbn [rounds]. rewrite bind_run. specialize (Hcomplete st Hst).
  destruct (complete openai st) as [[c|e] st0]; [|done]. simpl in Hcomplete.
  destruct (tool_calls c) as [[|tc calls]|]; [done| |done].
  rewrite bind_run. specialize (Hpush c st0 Hcomplete).
  destruct (pushMessage (AssistantChoice c) st0) as [[[]|e] st1]; [|done].
  rewrite bind_run.
  pose proof (forEach_dispatch_invariant I Hstep (tc :: calls) st1 Hpush) as Hround.
  destruct (forEach dispatch' (tc :: calls) st1) as [[[]|e] st2]; [by apply IH|done].
Qed.

Lemma dispatch_shape tc st :
  (exists w', (dispatch' tc st).2 = Agent w' (messages st) (actions st) (requests st)) \/
  (exists w' args r,
      (dispatch' tc st).2 =
        Agent w' (messages st ++ [ToolMessage (call_id tc) r])
              (actions st ++ [Action (fn_name tc) args r]) (requests st)).
Proof.
  destruct (agentHandlers (fn_name tc)) as [h|] eqn:Hh.
  - rewrite (dispatch_known _ _ _ _ Hh).
    destruct (callHandler' h (parsedArguments tc) (env st)) as [[r|e] w'].
    + right. by do 3 eexists.
    + left. by eexists.
  - rewrite (dispatch_unknown _ _ _ Hh). right. by do 3 eexists.
Qed.

(** ** The reply *)

Lemma rounds_reply openai n st res st' :
  rounds' openai n st = (Ok res, st') ->
  reply res <> "" /\ trail res = actions st'.
Proof.
  revert st. induction n as [|n IH]; intros st.
  - intros [= <- <-]. by split.
  - cbn [rounds]. rewrite bind_run.
    destruct (complete openai st) as [[c|e] st0]; [|done].
    destruct (tool_calls c) as [[|tc calls]|].
    + intros [= <- <-]. split; [|done]. simpl. by destruct (content c) as [[|]|].
    + rewrite bind_run.
      destruct (pushMessage (AssistantChoice c) st0) as [[[]|e] st1]; [|done].
      rewrite bind_run.
      destruct (forEach dispatch' (tc :: calls) st1) as [[[]|e] st2]; [|done].
      apply IH.
    + intros [= <- <-]. split; [|done]. simpl. by destruct (content c) as [[|]|].
Qed.

(** X8. Whenever [runAgent] returns, its reply is not the empty string
    (an empty or missing model text becomes [Done.]) and the trail it
    returns is the whole action trail of the invocation. *)
Theorem reply_never_empty client history message w res st :
  runAgent' client history message w = (Ok res, st) ->
  reply res <> "" /\ trail res = actions st.
Proof.
  unfold runAgent. destruct client as [openai|]; [|done]. apply rounds_reply.
Qed.

(** ** The working message list *)

Lemma chained_extend base st w' extra acts :
  chained base st ->
  chained base (Agent w' (messages st ++ extra) acts (requests st)).
Proof.
  intros (Hbase & Hreq & Hchain). split_and!; simpl.
  - by apply prefix_app_r.
  - intros r Hr. destruct (Hreq r Hr). split; [done|by apply prefix_app_r].
  - done.
Qed.

Lemma chained_complete base openai st :
  chained base st -> chained base (complete openai st).2.
Proof.
  intros (Hbase & Hreq & Hchain). split_and!; simpl.
  - done.
  - intros r [Hr|Hr%list_elem_of_singleton]%elem_of_app; [by apply Hreq|].
    by subst r.
  - intros i j a b Hij Hi Hj.
    apply lookup_app_Some in Hj as [Hj|[Hlen Hj]].
    + apply lookup_app_Some in Hi as [Hi|[Hlen' _]]; [by eapply Hchain|].
      apply lookup_lt_Some in Hj. lia.
    + apply list_lookup_singleton_Some in Hj as [_ <-].
      apply lookup_app_Some in Hi as [Hi|[_ Hi]].
      * by eapply Hreq, list_elem_of_lookup_2.
      * by apply list_lookup_singleton_Some in Hi as [_ <-].
Qed.

Lemma chained_dispatch base tc st :
  chained base st -> chained base (dispatch' tc st).2.
Proof.
  intros Hst.
  destruct (dispatch_shape tc st) as [(w' & ->)|(w' & args & r & ->)].
  - rewrite <- (app_nil_r (messages st)). by apply chained_extend.
  - by apply chained_extend.
Qed.

(** X9. The working message list only grows: every request sent to the
    model starts with the system prompt, the history and the user message,
    each request is a prefix of every later one, and all are prefixes of
    the message list the invocation ends with. *)
Theorem requests_grow openai history message w :
  let base := [SystemMessage SYSTEM_PROMPT] ++ history ++ [UserMessage message] in
  let st := (runAgent' (Some openai) history message w).2 in
  (forall r, r ∈ requests st -> base `prefix_of` r /\ r `prefix_of` messages st) /\
  (forall i j a b, (i <= j)%nat -> requests st !! i = Some a ->
                   requests st !! j = Some b -> a `prefix_of` b).
Proof.
  intros base st.
  assert (Hst : chained base st).
  { subst st. unfold runAgent. apply (rounds_invariant (chained base)).
    - apply chained_complete.
    - intros c st0 Hst0. by apply chained_extend.
    - apply chained_dispatch.
    - split_and!; simpl; [done|by intros r Hr%elem_of_nil|by intros [|i] j a b]. }
  destruct Hst as (_ & Hreq & Hchain). by split.
Qed.

(** ** The audit trail *)

Lemma toolResults_app l1 l2 : toolResults (l1 ++ l2) = toolResults l1 ++ toolResults l2.
Proof. apply omap_app. Qed.

Lemma audited_dispatch base tc st :
  audited base st -> audited base (dispatch' tc st).2.
Proof.
  unfold audited. intros Hst.
  destruct (dispatch_shape tc st) as [(w' & ->)|(w' & args & r & ->)]; simpl.
  - done.
  - by rewrite toolResults_app, fmap_app, Hst, app_assoc.
Qed.

(** X10. The tool results shown to the model are those of the history
    followed by the results of the action trail, one for one and in order:
    an action is recorded exactly when its result is sent back, also in an
    invocation that ends with an exception. *)
Theorem trail_matches_messages openai history message w :
  let st := (runAgent' (Some openai) history message w).2 in
  toolResults (messages st) = toolResults history ++ (result <$> actions st).
Proof.
  intros st. subst st. unfold runAgent.
  apply (rounds_invariant (audited (toolResults history))).
  - by intros st0.
  - intros c st0 Hst0. unfold audited in *.
    cbn [pushMessage snd messages actions].
    rewrite toolResults_app, Hst0. cbn [toolResults omap list_omap].
    by rewrite app_nil_r.
  - apply audited_dispatch.
  - unfold audited. cbn [messages actions].
    rewrite !toolResults_app. cbn [toolResults omap list_omap fmap list_fmap].
    rewrite !app_nil_r. reflexivity.
Qed.

End AgentInvariants.

Lemma reply_never_empty_witness :
  exists res st,
    runAgent sampleStringToNumber (Some quietModel) [] "hello" sampleWorld
      = (Ok res, st) /\
    reply res <> "" /\ trail res = actions st.
Proof.
  destruct (runAgent sampleStringToNumber (Some quietModel) [] "hello" sampleWorld)
    as [[res|e] st] eqn:Hrun; [|vm_compute in Hrun; discriminate].
  exists res, st. split; [done|].
  exact (reply_never_empty _ _ _ _ _ _ _ Hrun).
Defined.

(** * Further properties of the tool handlers *)

Section HandlerEdges.

Variable StringToNumber : string -> number.

Local Abbreviation dispatch' := (dispatch StringToNumber).
Local Abbreviation handle' := (handle StringToNumber).

Lemma truncateText_length limit text :
  (String.length (truncateText limit text) <= limit + 3)%nat.
Proof.
  unfold truncateText.
  destruct (String.eqb_spec text "") as [->|Hne]; [simpl; lia|].
  destruct (Nat.leb_spec (String.length text) limit) as [Hle|Hlt]; [lia|].
  rewrite length_append, slice0_length by lia. simpl. lia.
Qed.

Lemma searchNotes_falsy q w :
  truthy q = false -> searchNotes q w = (Ok (collection w), opened w).
Proof.
  intros Hq. rewrite searchNotes_run. unfold or_else. rewrite Hq.
  cbn [toString]. unfold searchFilter. f_equal. f_equal.
  rewrite filter_as_bool. apply filter_all.
  intros n. simpl. by rewrite includes_empty.
Qed.

(** X11. [list_notes] never looks at its arguments: whatever they are, it
    returns one summary per stored note, in storage order, each with a
    preview of at most 163 characters, and rewrites nothing.  [search_notes]
    called without a query, or with a falsy one, returns the same
    summaries. *)
Theorem list_notes_total args w :
  exists summaries,
    handle' list_notes args w = (Ok (RSummaries summaries), opened w) /\
    s_id <$> summaries = Note.id <$> collection w /\
    s_title <$> summaries = Note.title <$> collection w /\
    Forall (fun s => (String.length (s_preview s) <= 163)%nat) summaries /\
    (forall searchArgs,
        searchArgs <> VNull -> searchArgs <> VUndefined ->
        truthy (member searchArgs "query") = false ->
        handle' search_notes searchArgs w = (Ok (RSummaries summaries), opened w)).
Proof.
  exists (summarize <$> collection w). split_and!.
  - unfold handle. by rewrite bind_run, readNotes_run.
  - by rewrite <- list_fmap_compose.
  - by rewrite <- list_fmap_compose.
  - apply Forall_fmap, Forall_forall. intros n _. apply (truncateText_length 160).
  - intros searchArgs Hnull Hundef Hq. unfold handle.
    rewrite prop_defined, bind_ret, bind_run by done.
    by rewrite searchNotes_falsy.
Qed.

(** X12. Arguments that parse to [null] make every handler that reads
    them throw a TypeError before the file is rewritten; in the loop the
    exception ends the dispatch with no action recorded and no tool message
    added. *)
Theorem null_arguments_throw t w :
  t <> list_notes ->
  (exists msg w',
      handle' t VNull w = (Throw (TypeError msg), w') /\
      collection w' = collection w /\ rewrites w' = rewrites w) /\
  (forall id st,
      exists e st',
        dispatch' (ToolCall id (toolName t) (Some VNull)) st = (Throw e, st') /\
        actions st' = actions st /\ messages st' = messages st).
Proof.
  intros Ht.
  assert (Hthrow : exists msg w',
             handle' t VNull w = (Throw (TypeError msg), w') /\
             collection w' = collection w /\ rewrites w' = rewrites w).
  { destruct t; try done.
    - do 2 eexists. by split.
    - destruct (opened_fields w) as (_ & _ & Hr).
      do 2 eexists. unfold handle, addNote.
      rewrite !bind_run, readNotes_run. simpl.
      split; [reflexivity|]. by rewrite opened_collection.
    - do 2 eexists. by split.
    - do 2 eexists. by split. }
  split; [done|]. intros id st.
  pose proof (agentHandlers_registered t) as Hh.
  rewrite (dispatch_known StringToNumber (ToolCall id (toolName t) (Some VNull)) st
             (Own t) Hh).
  change (parsedArguments (ToolCall id (toolName t) (Some VNull))) with VNull.
  cbn [callHandler].
  assert (Hany : forall w0, exists e w', handle' t VNull w0 = (Throw e, w')).
  { intros w0. destruct t; try done; try (do 2 eexists; reflexivity).
    do 2 eexists. unfold handle, addNote. rewrite !bind_run, readNotes_run.
    reflexivity. }
  destruct (Hany (env st)) as (e & w' & ->). by do 2 eexists.
Qed.

(** X13. Arguments that are not valid JSON are taken as the empty object:
    a registered tool is dispatched exactly as if it had been called with
    [{}], so [create_note] stores an untitled, empty, general, white
    note. *)
Theorem malformed_arguments_empty id t st :
  dispatch' (ToolCall id (toolName t) None) st =
    dispatch' (ToolCall id (toolName t) (Some (VObj []))) st /\
  exists n w',
    handle' create_note (parsedArguments (ToolCall id "create_note" None)) (env st)
      = (Ok (RNote n), w') /\
    Note.title n = "Untitled" /\ Note.text n = "" /\
    Note.category n = "general" /\ Note.color n = "#ffffff" /\
    collection w' = collection (env st) ++ [n].
Proof.
  split.
  - pose proof (agentHandlers_registered t) as Hh.
    rewrite (dispatch_known StringToNumber (ToolCall id (toolName t) None)
               st (Own t) Hh).
    by rewrite (dispatch_known StringToNumber
                  (ToolCall id (toolName t) (Some (VObj []))) st (Own t) Hh).
  - do 2 eexists. unfold handle.
    change (parsedArguments (ToolCall id "create_note" None)) with (VObj []).
    rewrite bind_run, addNote_run by done. split; [reflexivity|].
    by split_and!.
Qed.

End HandlerEdges.

Lemma null_arguments_throw_witness :
  exists msg w',
    handle sampleStringToNumber delete_note VNull sampleWorld
      = (Throw (TypeError msg), w') /\
    collection w' = collection sampleWorld /\ rewrites w' = rewrites sampleWorld.
Proof.
  apply (null_arguments_throw sampleStringToNumber delete_note sampleWorld).
  discriminate.
Defined.

(** * Properties of the HTTP routes *)

Section RouteProperties.

Variable parseInt : string -> number.
Variable StringToNumber : string -> number.

Lemma find_none_iff id (l : list note) :
  list_find (hasId id) l = None <-> ¬ exists n, n ∈ l /\ hasId id n.
Proof.
  rewrite list_find_None, Forall_forall. split.
  - intros Hall (n & Hn & Hid). by apply (Hall n).
  - intros Hno n Hn Hid. apply Hno. by exists n.
Qed.

(** X14. [GET] and [DELETE /api/notes/:id] never throw: they answer 404
    with [Note not found] exactly when no stored note has the parsed id,
    leaving the collection as it was, and 200 otherwise.  So does
    [PUT /api/notes/:id] when no note has the id, whatever the body, and
    when the body goes through; on a stored note, a body whose category or
    color does not convert to a string makes the route throw, with nothing
    written. *)
Theorem id_routes_status idParam reqBody w :
  let missing := ¬ exists n, n ∈ collection w /\ hasId (parseInt idParam) n in
  let answers (run : outcome response * world) :=
    exists r w',
      run = (Ok r, w') /\
      (missing -> r = Response 404 (BodyError "Note not found")
                  /\ collection w' = collection w) /\
      (¬ missing -> status r = 200%nat) in
  answers (route_getNote parseInt idParam w) /\
  answers (route_deleteNote parseInt idParam w) /\
  (missing \/ acceptable (or_else reqBody (VObj [])) = true ->
   answers (route_putNote parseInt idParam reqBody w)) /\
  (¬ missing -> acceptable (or_else reqBody (VObj [])) = false ->
   exists e, route_putNote parseInt idParam reqBody w = (Throw e, opened w)).
Proof.
  intros missing answers. subst answers. cbv beta.
  destruct (list_find (hasId (parseInt idParam)) (collection w))
    as [[index old]|] eqn:Hfind.
  - assert (Hfound : ¬ missing).
    { intros Hm. apply find_none_iff in Hm. congruence. }
    split_and!.
    + unfold route_getNote. rewrite bind_run, getNoteById_run, Hfind.
      do 2 eexists. split; [reflexivity|]. by split.
    + unfold route_deleteNote. rewrite bind_run, deleteNoteById_run. cbv zeta.
      destruct (decide _) as [Heq|Hne].
      * apply list_find_Some in Hfind as (Hlook & Hid & _).
        apply list_elem_of_lookup_2 in Hlook. rewrite <- Heq in Hlook.
        by apply list_elem_of_filter in Hlook as [? _].
      * do 2 eexists. split; [reflexivity|]. by split.
    + intros [Hm|Hacc]; [done|]. unfold route_putNote.
      rewrite bind_run, (updateNoteById_found _ _ _ _ _ Hfind Hacc).
      do 2 eexists. split; [reflexivity|]. by split.
    + intros _ Hacc. unfold route_putNote.
      destruct (updateNoteById_rejected _ _ w index old Hfind Hacc) as [e He].
      exists e. by rewrite bind_run, He.
  - assert (Hmissing : missing) by by apply find_none_iff.
    split_and!.
    + unfold route_getNote. rewrite bind_run, getNoteById_run, Hfind.
      do 2 eexists. split; [reflexivity|]. split; [|done].
      intros _. split; [done|apply opened_collection].
    + unfold route_deleteNote. rewrite bind_run, deleteNoteById_run. cbv zeta.
      rewrite decide_True by by apply find_none_filter.
      do 2 eexists. split; [reflexivity|]. split; [|done].
      intros _. split; [done|apply opened_collection].
    + intros _. unfold route_putNote.
      rewrite bind_run, updateNoteById_missing by done.
      do 2 eexists. split; [reflexivity|]. split; [|done].
      intros _. split; [done|apply opened_collection].
    + done.
Qed.

(** X15. [POST /api/notes] with a body that goes through (its category
    and color, when present, convert to strings; a missing body is taken
    as the empty object) answers 201 with the created note, and a following
    [GET /api/notes] lists the notes stored before, in their order,
    followed by the new one.  With any other body the route throws and
    stores nothing. *)
Theorem post_then_list reqBody w :
  (acceptable (or_else reqBody (VObj [])) = true ->
   exists n w',
     route_postNote reqBody w = (Ok (Response 201 (BodyNote n)), w') /\
     route_getNotes w' =
       (Ok (Response 200 (BodyNotes (collection w ++ [n]))), w')) /\
  (acceptable (or_else reqBody (VObj [])) = false ->
   exists e w',
     route_postNote reqBody w = (Throw e, w') /\
     collection w' = collection w /\ rewrites w' = rewrites w).
Proof.
  unfold route_postNote, route_getNotes. split; intros Hacc.
  - rewrite bind_run, addNote_run by done.
    do 2 eexists. split; [reflexivity|].
    rewrite bind_run, readNotes_run, collection_stored.
    by rewrite (opened_existing (stored _ _) _ eq_refl).
  - destruct (addNote_rejected _ w Hacc) as [e He].
    exists e, (opened w). rewrite bind_run, He. split; [done|].
    destruct (opened_fields w) as (_ & _ & Hr).
    by rewrite opened_collection.
Qed.

Lemma keepHistoryItem_spec item :
  keepHistoryItem item = true <-> conversational (HistoryEntry item).
Proof.
  unfold keepHistoryItem, conversational. split.
  - intros Hkeep.
    destruct (member item "role") as [| | | |role| |] eqn:Hrole;
      try (by rewrite andb_false_r in Hkeep).
    destruct (member item "content") as [| | | |text| |] eqn:Hcontent;
      try (by rewrite andb_false_r in Hkeep).
    exists item, role, text. split_and!; try done.
    rewrite andb_true_r in Hkeep. apply andb_true_iff in Hkeep as [_ Hkeep].
    apply orb_true_iff in Hkeep as [Hr|Hr]; apply String.eqb_eq in Hr; auto.
  - intros (item' & role & text & [= <-] & Hrole & Hr & Hcontent).
    rewrite Hrole, Hcontent.
    assert (Hitem : truthy item = true) by (by destruct item).
    rewrite Hitem. destruct Hr as [-> | ->]; reflexivity.
Qed.

Lemma requestHistory_conversational reqBody :
  Forall conversational (requestHistory reqBody).
Proof.
  unfold requestHistory. destruct (optionalMember reqBody "history"); try constructor.
  apply Forall_fmap, Forall_forall. intros item Hitem%list_elem_of_In.
  apply List.filter_In in Hitem as [_ Hkeep]. by apply keepHistoryItem_spec.
Qed.

Lemma toolResults_conversational l :
  Forall conversational l -> toolResults l = [].
Proof.
  induction 1 as [|m l (item & role & text & -> & _) _ IH]; [done|]. exact IH.
Qed.

Lemma rounds_first_request openai n st :
  exists more,
    requests (rounds StringToNumber openai (S n) st).2
      = requests st ++ messages st :: more.
Proof.
  cbn [rounds]. rewrite bind_run. unfold complete.
  destruct (openai (messages st)) as [c|e]; [|by exists []].
  set (st0 := Agent _ _ _ (requests st ++ [messages st])).
  destruct (tool_calls c) as [[|tc calls]|]; [by exists []| |by exists []].
  rewrite bind_run. cbn [pushMessage]. rewrite bind_run.
  set (st1 := Agent _ _ _ _).
  destruct (forEach (dispatch StringToNumber) (tc :: calls) st1)
    as [[[]|e] st2] eqn:Hrun;
    apply forEach_dispatch_grows in Hrun as (Hreq & _); simpl in Hreq.
  - apply (rounds_invariant StringToNumber
             (fun s => exists more, requests s = requests st ++ messages st :: more)).
    + intros s [more Hs]. simpl. rewrite Hs. exists (more ++ [messages s]).
      by rewrite <- app_assoc.
    + by intros c0 s.
    + intros tc0 s [more Hs].
      destruct (dispatch_shape StringToNumber tc0 s)
        as [(w' & ->)|(w' & args & r & ->)]; by exists more.
    + exists []. by rewrite Hreq.
  - exists []. simpl. by rewrite Hreq.
Qed.

Lemma runAgent_audited openai history message w :
  let st := (runAgent StringToNumber (Some openai) history message w).2 in
  toolResults (messages st) = toolResults history ++ (result <$> actions st).
Proof.
  intros st. subst st. unfold runAgent.
  apply (rounds_invariant StringToNumber (audited (toolResults history))).
  - by intros st0.
  - intros c st0 Hst0. unfold audited in *.
    cbn [pushMessage snd messages actions].
    rewrite toolResults_app, Hst0. cbn [toolResults omap list_omap].
    by rewrite app_nil_r.
  - apply audited_dispatch.
  - unfold audited. cbn [messages actions].
    rewrite !toolResults_app. cbn [toolResults omap list_omap fmap list_fmap].
    rewrite !app_nil_r. reflexivity.
Qed.

(** X16. [POST /api/agent] answers 400 exactly when the body carries no
    message that is a non-empty string, and then calls no model and leaves
    the machine alone; otherwise it answers 200 with the agent's result,
    whose reply is not empty, or 500 with a message that is not empty: no
    exception leaves the route. *)
Theorem agent_route_contained client reqBody w :
  let valid := exists s, optionalMember reqBody "message" = VStr s /\ s <> "" in
  let r := (route_agent StringToNumber client reqBody w).1 in
  let st := (route_agent StringToNumber client reqBody w).2 in
  (¬ valid -> r = Response 400 (BodyError "Message is required.")
              /\ st = Agent w [] [] []) /\
  (valid ->
     (exists res, r = Response 200 (BodyAgent res) /\ reply res <> ""
                  /\ trail res = actions st) \/
     (exists msg, r = Response 500 (BodyError msg) /\ msg <> "")) /\
  (valid -> client = None ->
     r = Response 500 (BodyError "OPENAI_API_KEY is not configured.")).
Proof.
  intros valid r st. subst r st. unfold route_agent.
  destruct (optionalMember reqBody "message") as [| | | |s| |] eqn:Hm;
    try (rewrite orb_true_r; split_and!; [done|intros (s0 & [=] & _)..]).
  destruct (String.eqb_spec s "") as [->|Hs].
  { simpl. split_and!; [done|intros (s & [= <-] & Hs); done..]. }
  assert (Htruthy : truthy (VStr s) = true)
    by (simpl; by destruct (String.eqb_spec s "")).
  rewrite Htruthy. cbn [negb orb toString].
  split_and!.
  - intros Hno. destruct Hno. by exists s.
  - intros _.
    destruct (runAgent StringToNumber client _ s w) as [[res|e] st] eqn:Hrun; simpl.
    + left. exists res. split; [done|].
      unfold runAgent in Hrun. destruct client as [openai|]; [|done].
      by apply rounds_reply in Hrun.
    + right. eexists. split; [reflexivity|].
      by destruct (String.eqb_spec (errorMessage e) "").
  - by intros _ ->.
Qed.

(** X17. The history a caller supplies reaches the model filtered and
    otherwise as it was sent: the entries kept are the objects whose role
    is user or assistant and whose content is a string, in their order and
    with every property they carry; every other entry is dropped, and a
    history that is not an array counts as empty.  The first request is
    the system prompt, the kept entries and the user message, and the tool
    results the model sees are exactly those of the action trail. *)
Theorem history_sanitized openai reqBody s w :
  optionalMember reqBody "message" = VStr s -> s <> "" ->
  let st := (route_agent StringToNumber (Some openai) reqBody w).2 in
  Forall conversational (requestHistory reqBody) /\
  (forall items,
      optionalMember reqBody "history" = VArr items ->
      exists kept,
        requestHistory reqBody = HistoryEntry <$> kept /\
        kept `sublist_of` items /\
        forall item, item ∈ kept <->
                     item ∈ items /\ conversational (HistoryEntry item)) /\
  ((forall items, optionalMember reqBody "history" <> VArr items) ->
   requestHistory reqBody = []) /\
  requests st !! 0%nat =
    Some ([SystemMessage SYSTEM_PROMPT] ++ requestHistory reqBody ++ [UserMessage s]) /\
  toolResults (messages st) = result <$> actions st.
Proof.
  intros Hm Hs st.
  assert (Hst : st = (runAgent StringToNumber (Some openai) (requestHistory reqBody)
                        s w).2).
  { subst st. unfold route_agent. rewrite Hm.
    assert (Htruthy : truthy (VStr s) = true)
      by (simpl; by destruct (String.eqb_spec s "")).
    rewrite Htruthy. cbn [negb orb]. fold (requestHistory reqBody).
    by destruct (runAgent _ _ _ _ _) as [[res|e] st']. }
  split_and!.
  - apply requestHistory_conversational.
  - intros items Hitems. exists (List.filter keepHistoryItem items).
    unfold requestHistory. rewrite Hitems. split; [done|].
    rewrite <- filter_as_bool. split; [apply sublist_filter|].
    intros item. rewrite list_elem_of_filter, Is_true_true, keepHistoryItem_spec.
    split; intros [? ?]; by split.
  - intros Hnone. unfold requestHistory.
    destruct (optionalMember reqBody "history"); try done. by destruct (Hnone items).
  - rewrite Hst. unfold runAgent.
    destruct (rounds_first_request openai 2
                (Agent w ([SystemMessage SYSTEM_PROMPT] ++ requestHistory reqBody
                          ++ [UserMessage s]) [] [])) as [more ->].
    done.
  - rewrite Hst, runAgent_audited.
    by rewrite toolResults_conversational by apply requestHistory_conversational.
Qed.

End RouteProperties.

Lemma id_routes_status_witness :
  (exists r w',
      route_putNote sampleParseInt "41" (VObj [("text", VStr " Bread ")])
        sampleWorld = (Ok r, w') /\ status r = 200%nat) /\
  (exists e,
      route_putNote sampleParseInt "41" badCategoryBody sampleWorld
        = (Throw e, opened sampleWorld)).
Proof.
  assert (Hfound : ¬ ¬ exists n, n ∈ collection sampleWorld
                                 /\ hasId (sampleParseInt "41") n).
  { intros Hno. apply Hno. exists sampleNote. split; [|reflexivity].
    by apply list_elem_of_singleton. }
  split.
  - destruct (id_routes_status sampleParseInt "41" (VObj [("text", VStr " Bread ")])
                sampleWorld) as (_ & _ & Hput & _).
    destruct Hput as (r & w' & Hrun & _ & Hok); [by right|].
    exists r, w'. split; [exact Hrun|by apply Hok].
  - destruct (id_routes_status sampleParseInt "41" badCategoryBody sampleWorld)
      as (_ & _ & _ & Hthrow).
    by apply Hthrow.
Defined.

Lemma post_then_list_witness :
  (exists n w',
      route_postNote (VObj [("title", VStr "A"); ("text", VStr "B")]) sampleWorld
        = (Ok (Response 201 (BodyNote n)), w') /\
      route_getNotes w' =
        (Ok (Response 200 (BodyNotes (collection sampleWorld ++ [n]))), w')) /\
  (exists e w',
      route_postNote badColorBody sampleWorld = (Throw e, w') /\
      collection w' = collection sampleWorld /\
      rewrites w' = rewrites sampleWorld).
Proof.
  split.
  - by apply (post_then_list (VObj [("title", VStr "A"); ("text", VStr "B")])
                sampleWorld).
  - by apply (post_then_list badColorBody sampleWorld).
Defined.

Lemma history_sanitized_witness :
  requestHistory sampleRequest =
    [HistoryEntry (VObj [("role", VStr "user"); ("content", VStr "hi")]);
     HistoryEntry (VObj [("role", VStr "assistant"); ("content", VStr "hello");
                         ("tool_calls", VArr [VObj [("id", VStr "call_9")]])])] /\
  Forall conversational (requestHistory sampleRequest) /\
  requests (route_agent sampleStringToNumber (Some persistentModel) sampleRequest
              sampleWorld).2 !! 0%nat =
    Some ([SystemMessage SYSTEM_PROMPT] ++ requestHistory sampleRequest
          ++ [UserMessage "tidy up"]).
Proof.
  split; [by vm_compute|].
  destruct (history_sanitized sampleStringToNumber persistentModel sampleRequest
              "tidy up" sampleWorld) as (Hconv & _ & _ & Hfirst & _).
  - by vm_compute.
  - discriminate.
  - by split.
Defined.

(** * Properties of the browser client *)

Lemma filter_filter_and {A} (P Q : A -> Prop)
    `{!forall x, Decision (P x)} `{!forall x, Decision (Q x)} (l : list A) x :
  x ∈ filter Q (filter P l) <-> x ∈ l /\ P x /\ Q x.
Proof. rewrite !list_elem_of_filter. tauto. Qed.

Lemma isEmpty_spec {A} (l : list A) : (length l =? 0)%nat = true <-> l = [].
Proof. destruct l; simpl; split; (done || lia). Qed.

Lemma renderNotes_cards notes currentCategory searchValue :
  let page := Client.renderNotes notes currentCategory searchValue in
  Client.cards page =
    filter (fun n : note =>
              includes (toLowerCase (Note.title n)) (toLowerCase searchValue)
              || includes (toLowerCase (Note.text n)) (toLowerCase searchValue))
           (if String.eqb currentCategory "all" then notes
            else filter (fun n => Note.category n = currentCategory) notes) /\
  (Client.emptyState page = true <-> Client.cards page = []).
Proof.
  unfold Client.renderNotes. cbv zeta.
  destruct (String.eqb currentCategory "all"); cbn [negb];
    destruct (String.eqb_spec (toLowerCase searchValue) "") as [Hempty|_];
    cbn [negb];
    rewrite ?Hempty;
    repeat match goal with
    | |- context [filter (fun n : note => Is_true (includes _ "" || includes _ "")) ?l] =>
        replace (filter (fun n : note =>
                   Is_true (includes (toLowerCase (Note.title n)) ""
                            || includes (toLowerCase (Note.text n)) "")) l)
          with l
          by (rewrite filter_as_bool, filter_all; [done|];
              intros n; by rewrite includes_empty)
    end;
    match goal with
    | |- context [(length ?l =? 0)%nat] => by destruct l
    end.
Qed.

(** X18. The page and the server search alike.  With the category filter
    on [all], the page shows for a search text exactly the notes, in the
    same order, that the server's search returns for it on the same
    collection; with a category chosen it shows, in the same order, those
    of them that have the category.  The empty state is shown exactly when
    no card is. *)
Theorem client_search_agrees w currentCategory searchValue :
  let page := Client.renderNotes (collection w) currentCategory searchValue in
  exists found,
    (searchNotes (VStr searchValue) w).1 = Ok found /\
    (currentCategory = "all" -> Client.cards page = found) /\
    (currentCategory <> "all" ->
     Client.cards page = filter (fun n => Note.category n = currentCategory) found) /\
    (forall n, n ∈ Client.cards page <->
               n ∈ found /\
               (currentCategory = "all" \/ Note.category n = currentCategory)) /\
    (Client.emptyState page = true <-> Client.cards page = []).
Proof.
  intros page.
  destruct (renderNotes_cards (collection w) currentCategory searchValue)
    as [Hcards Hempty].
  fold page in Hcards, Hempty.
  assert (Hq : toString (or_else (VStr searchValue) (VStr "")) = Ok searchValue).
  { unfold or_else, truthy. by destruct (String.eqb_spec searchValue "") as [->|]. }
  eexists. rewrite searchNotes_run, Hq. split; [reflexivity|].
  unfold searchFilter. cbv zeta. rewrite Hcards.
  destruct (String.eqb_spec currentCategory "all") as [->|Hcat].
  - split_and!; [done|done| |by rewrite <- Hcards].
    intros n. split; [by auto|by intros [? _]].
  - split_and!; [done| | |by rewrite <- Hcards].
    + intros _. rewrite !list_filter_filter. apply list_filter_iff.
      intros n. split; intros [? ?]; by split.
    + intros n. rewrite !list_elem_of_filter. split.
      * intros (Hk & Hc & Hn). by auto.
      * intros ((Hk & Hn) & [Hall|Hc]); [done|by auto].
Qed.

(** X19. The list the page keeps stays equal to the stored collection:
    after a delete request the page drops the notes with that id, which is
    what the server's collection becomes whether or not it found one; after
    a create the page appends the returned note, as the server did. *)
Theorem client_cache_coherent w :
  (forall id,
      Client.deleteNote id (collection w)
        = collection (deleteNoteById (Num id) w).2) /\
  (forall payload n w',
      addNote payload w = (Ok n, w') ->
      Client.createNote n (collection w) = collection w').
Proof.
  split.
  - intros id. unfold Client.deleteNote.
    assert (Hsame : filter (fun n => Note.id n <> id) (collection w)
                    = filter (fun n => ¬ hasId (Num id) n) (collection w)).
    { apply list_filter_iff. intros n. unfold hasId. split; intros H ?; apply H; congruence. }
    rewrite Hsame, deleteNoteById_run. cbv zeta.
    destruct (decide _) as [Heq|Hne]; simpl; [|done].
    by rewrite opened_collection.
  - intros payload n w' Hrun. destruct (acceptable payload) eqn:Hacc; cycle 1.
    { destruct (addNote_rejected payload w Hacc) as [e He]. rewrite He in Hrun.
      discriminate. }
    rewrite addNote_run in Hrun by done. by injection Hrun as <- <-.
Qed.

(** * The two versions of the server *)

Section LegacyRoutes.

Variable parseInt : string -> number.

Lemma existsb_hasId id (l : list note) :
  existsb (fun n => bool_decide (hasId id n)) l = false <->
  filter (fun n => ¬ hasId id n) l = l.
Proof.
  induction l as [|n l IH]; simpl; [done|]. rewrite filter_cons.
  destruct (decide (hasId id n)) as [Hid|Hid].
  - rewrite bool_decide_eq_true_2 by done. simpl.
    rewrite decide_False by tauto. split; [done|]. intros Heq.
    pose proof (length_filter (fun n => ¬ hasId id n) l) as Hlen.
    rewrite Heq in Hlen. simpl in Hlen. lia.
  - rewrite bool_decide_eq_false_2 by done. simpl.
    rewrite decide_True by done. rewrite IH. split; [by intros ->|congruence].
Qed.

(** X20. The first version of the server and the present one answer
    [DELETE /api/notes/:id] and [GET /api/notes/:id] alike: the same
    response and the same machine afterwards, on every machine and id. *)
Theorem legacy_routes_agree idParam w :
  Legacy.route_deleteNote parseInt idParam w = route_deleteNote parseInt idParam w /\
  Legacy.route_getNote parseInt idParam w = route_getNote parseInt idParam w.
Proof.
  split.
  - unfold Legacy.route_deleteNote, route_deleteNote.
    rewrite !bind_run, readNotes_run, deleteNoteById_run. cbv zeta.
    destruct (decide _) as [Heq|Hne].
    + by rewrite (proj2 (existsb_hasId _ _) Heq).
    + destruct (existsb _ _) eqn:Hex.
      * simpl. by rewrite bind_run, writeNotes_run.
      * by apply existsb_hasId in Hex.
  - unfold Legacy.route_getNote, route_getNote.
    rewrite !bind_run, readNotes_run, getNoteById_run.
    by destruct (list_find _ _) as [[i n]|].
Qed.

End LegacyRoutes.

(** * Reading never writes, and the round that needs no tool *)

Section ReadOnly.

Variable parseInt : string -> number.
Variable StringToNumber : string -> number.

(** X21. The routes that read never rewrite the file.  [GET /api/notes]
    and [GET /api/notes/:id] never throw, and neither does
    [GET /api/search] on a query that [String] converts (a string, as the
    query parser delivers it, or no query at all): the collection is the
    one stored before, and an existing data file leaves the machine exactly
    as it was.  On a query that [String] cannot convert the search route
    throws before it reads the file, and the machine is as it was. *)
Theorem read_routes_readonly idParam q w :
  let quiet (run : outcome response * world) :=
    exists r w',
      run = (Ok r, w') /\ collection w' = collection w /\
      rewrites w' = rewrites w /\ ticks w' = ticks w /\
      (forall l, disk w = Some l -> w' = w) in
  quiet (route_getNotes w) /\
  quiet (route_getNote parseInt idParam w) /\
  (converts q = true -> quiet (route_search q w)) /\
  (converts q = false -> exists e, route_search q w = (Throw e, w)).
Proof.
  intros quiet. subst quiet. cbv beta.
  destruct (opened_fields w) as (_ & Ht & Hr).
  assert (Hopened : collection (opened w) = collection w /\
                    rewrites (opened w) = rewrites w /\ ticks (opened w) = ticks w /\
                    (forall l, disk w = Some l -> opened w = w)).
  { split_and!; [apply opened_collection|done|done|].
    intros l Hl. by apply opened_existing with l. }
  split_and!.
  - unfold route_getNotes. rewrite bind_run, readNotes_run. by do 2 eexists.
  - unfold route_getNote. rewrite bind_run, getNoteById_run.
    destruct (_ <$> _); by do 2 eexists.
  - intros Hq. unfold route_search. rewrite bind_run, searchNotes_run.
    unfold converts, or_else in *. destruct (truthy q) eqn:Htruthy.
    + rewrite Htruthy. simpl in Hq. destruct (toString q); [|done].
      by do 2 eexists.
    + by do 2 eexists.
  - intros Hq. unfold route_search. rewrite bind_run, searchNotes_run.
    unfold converts, or_else in *. destruct (truthy q) eqn:Htruthy; [|done].
    rewrite Htruthy. simpl in Hq. destruct (toString q); [done|].
    by eexists.
Qed.

(** X22. When the model's first answer carries no tool call, [runAgent]
    returns after that single request with the model's text (or [Done.]
    when it is empty or missing) and an empty trail, and the machine is
    left as it was. *)
Theorem answer_without_tools openai history message w c :
  openai ([SystemMessage SYSTEM_PROMPT] ++ history ++ [UserMessage message]) = Ok c ->
  tool_calls c = None \/ tool_calls c = Some [] ->
  exists res st,
    runAgent StringToNumber (Some openai) history message w = (Ok res, st) /\
    trail res = [] /\
    (forall text, content c = Some text -> text <> "" -> reply res = text) /\
    (content c = None \/ content c = Some "" -> reply res = "Done.") /\
    requests st = [[SystemMessage SYSTEM_PROMPT] ++ history ++ [UserMessage message]] /\
    env st = w.
Proof.
  intros Hc Hcalls. unfold runAgent. cbn [rounds]. rewrite bind_run.
  unfold complete. cbn [messages]. rewrite Hc.
  assert (Hfinal : match tool_calls c with
                   | Some (_ :: _) => False
                   | _ => True
                   end) by (by destruct Hcalls as [-> | ->]).
  destruct (tool_calls c) as [[|tc calls]|]; [|done|];
    (do 2 eexists; split; [reflexivity|]; split_and!; try done;
     [intros text -> Hne; by destruct text|by intros [-> | ->]]).
Qed.

End ReadOnly.

Lemma read_routes_readonly_witness :
  (exists r w',
      route_search (VStr "milk") sampleWorld = (Ok r, w') /\
      collection w' = collection sampleWorld /\
      rewrites w' = rewrites sampleWorld /\ ticks w' = ticks sampleWorld /\
      (forall l, disk sampleWorld = Some l -> w' = sampleWorld)) /\
  (exists e,
      route_search (VObj [("toString", VNum 1)]) sampleWorld
        = (Throw e, sampleWorld)).
Proof.
  split.
  - by apply (read_routes_readonly sampleParseInt "41" (VStr "milk") sampleWorld).
  - by apply (read_routes_readonly sampleParseInt "41" (VObj [("toString", VNum 1)])
                sampleWorld).
Defined.

Lemma answer_without_tools_witness :
  exists res st,
    runAgent sampleStringToNumber (Some quietModel) [] "hello" sampleWorld
      = (Ok res, st) /\
    trail res = [] /\ reply res = "Done." /\ env st = sampleWorld.
Proof.
  destruct (answer_without_tools sampleStringToNumber quietModel [] "hello"
              sampleWorld (Choice (Some "") None))
    as (res & st & Hrun & Htrail & _ & Hdone & _ & Henv).
  - reflexivity.
  - by left.
  - exists res, st. split_and!; try done. apply Hdone. by right.
Defined.
